(** * Streamlit multilingual checker: the analysis engine of [app.py]

    A shallow embedding of the repository analysis engine (acquisition,
    candidate discovery, pattern detection, language detection, translation
    file index, dependency inspection, scoring) and the properties its
    specification states about it.

    Text.  A Python [str] is represented by the byte string of its UTF-8
    encoding, so the literals of the source are written as they stand.
    Substring tests on [str] agree with substring tests on encodings (UTF-8
    is self-synchronising).

    Lower case.  Every name the engine searches for in [content.lower()] is
    in lower case already and is made of ASCII characters and of characters
    of scripts without case.  A code point with a case that is changed into
    characters of none of these names can be left as it is: the search does
    not see it.
    Outside [A]..[Z] the code points whose lower case holds an ASCII letter
    are U+0130, which becomes [i] followed by U+0307, and U+212A, which
    becomes [k].  [Text.str_lower] maps the letters and these two code
    points and is used for the language indicators and the package names;
    [Text.lower] maps the letters only and is used for the names that hold
    no [k] and do not end in [i] ([streamlit], [git], [gitlab] and the
    translation keywords), on which the two agree
    ([contains_lower_exact]).  The regular expressions compare
    letters and recognise white space within the ASCII range. *)

From Stdlib Require Import String Ascii List Bool ZArith NArith Lia ListSet Permutation.
Import ListNotations.
Open Scope string_scope.
Open Scope list_scope.

(* ================================================================= *)
(** ** Python string operations *)

Module Text.

(** [c.lower()] on one ASCII character. *)
Definition lower_ascii (c : ascii) : ascii :=
  let n := N_of_ascii c in
  if ((65 <=? n) && (n <=? 90))%N then ascii_of_N (n + 32) else c.

(** [s.lower()] on the letters of the ASCII range, every other byte kept. *)
Fixpoint lower (s : string) : string :=
  match s with
  | EmptyString => EmptyString
  | String c s' => String (lower_ascii c) (lower s')
  end.

(** [s.lower()] where its result is searched for the lower-case ASCII
    names of the catalogues.  Outside [A]..[Z], two code points have a
    lower case that holds an ASCII letter: U+0130, capital I with dot
    above (bytes 196 176), whose lower case is [i] followed by U+0307 (bytes
    204 135), and U+212A, the Kelvin sign (bytes 226 132 170), whose lower
    case is [k]. *)
Fixpoint str_lower (s : string) : string :=
  match s with
  | EmptyString => EmptyString
  | String c s1 =>
      match s1 with
      | EmptyString => String (lower_ascii c) EmptyString
      | String c1 s2 =>
          if Ascii.eqb c "196" && Ascii.eqb c1 "176"
          then String "i" (String "204" (String "135" (str_lower s2)))
          else
            match s2 with
            | EmptyString => String (lower_ascii c) (str_lower s1)
            | String c2 s3 =>
                if Ascii.eqb c "226" && Ascii.eqb c1 "132" && Ascii.eqb c2 "170"
                then String "k" (str_lower s3)
                else String (lower_ascii c) (str_lower s1)
            end
      end
  end.

(** [s.startswith(p)]. *)
Fixpoint startswith (p s : string) : bool :=
  match p, s with
  | EmptyString, _ => true
  | String _ _, EmptyString => false
  | String a p', String b s' => Ascii.eqb a b && startswith p' s'
  end.

(** [needle in hay]. *)
Fixpoint contains (needle hay : string) : bool :=
  startswith needle hay ||
  match hay with
  | EmptyString => false
  | String _ hay' => contains needle hay'
  end.

(** [s[::-1]]: a suffix test is the prefix test on the reversed strings. *)
Fixpoint rev (s : string) : string :=
  match s with
  | EmptyString => EmptyString
  | String c s' => rev s' ++ String c EmptyString
  end.

(** [s.endswith(p)]. *)
Definition endswith (p s : string) : bool := startswith (rev p) (rev s).

(** [s[:-n]] for [n <= len(s)]. *)
Definition drop_last (n : nat) (s : string) : string :=
  substring 0 (String.length s - n) s.

(** [s.rstrip('/')]. *)
Fixpoint rstrip_slash (s : string) : string :=
  match s with
  | EmptyString => EmptyString
  | String c s' =>
      match rstrip_slash s' with
      | EmptyString => if Ascii.eqb c "/" then EmptyString else String c EmptyString
      | r => String c r
      end
  end.

(** [s.split('/')]: the fields between the separators, never empty as a
    list. *)
Fixpoint split_slash (s : string) : list string :=
  match s with
  | EmptyString => [EmptyString]
  | String c s' =>
      if Ascii.eqb c "/" then EmptyString :: split_slash s'
      else match split_slash s' with
           | [] => [String c EmptyString]
           | w :: ws => String c w :: ws
           end
  end.

(** ['/'.join(parts)]. *)
Definition join_slash (parts : list string) : string := String.concat "/" parts.

End Text.

(* ================================================================= *)
(** ** LanguageContentDetector *)

(** The dictionary [language_indicators] of [detect_languages_in_content],
    in its declaration order. *)
Definition language_indicators : list (string * list string) :=
  [ ("english", ["en"; "english"; "hello"; "thank you"; "please"; "welcome"; "goodbye"]);
    ("hindi", ["hi"; "हिंदी"; "नमस्ते"; "धन्यवाद"; "कृपया"; "स्वागत"; "अलविदा"]);
    ("bengali", ["bn"; "বাংলা"; "নমস্কার"; "ধন্যবাদ"; "দয়া করে"; "স্বাগতম"]);
    ("tamil", ["ta"; "தமிழ்"; "வணக்கம்"; "நன்றி"; "தயவுசெய்து"; "வரவேற்கிறோம்"]);
    ("telugu", ["te"; "తెలుగు"; "నమస్కారం"; "ధన్యవాదాలు"; "దయచేసి"; "స్వాగతం"]);
    ("marathi", ["mr"; "मराठी"; "नमस्कार"; "धन्यवाद"; "कृपया"; "स्वागत"]);
    ("gujarati", ["gu"; "ગુજરાતી"; "નમસ્તે"; "આભાર"; "કૃપા કરીને"; "સ્વાગત"]);
    ("kannada", ["kn"; "ಕನ್ನಡ"; "ನಮಸ್ತೆ"; "ಧನ್ಯವಾದಗಳು"; "ದಯವಿಟ್ಟು"; "ಸ್ವಾಗತ"]);
    ("malayalam", ["ml"; "മലയാളം"; "നമസ്തേ"; "നന്ദി"; "ദയവായി"; "സ്വാഗതം"]);
    ("punjabi", ["pa"; "ਪੰਜਾਬੀ"; "ਸਤ ਸ੍ਰੀ ਅਕਾਲ"; "ਧੰਨਵਾਦ"; "ਕਿਰਪਾ ਕਰਕੇ"]);
    ("oriya", ["or"; "ଓଡ଼ିଆ"; "ନମସ୍କାର"; "ଧନ୍ୟବାଦ"; "ଦୟାକରି"; "ସ୍ୱାଗତ"]);
    ("assamese", ["as"; "অসমীয়া"; "নমস্কাৰ"; "ধন্যবাদ"; "অনুগ্ৰহ কৰি"]);
    ("urdu", ["ur"; "اردو"; "آداب"; "شکریہ"; "براہ کرم"; "خوش آمدید"]);
    ("sanskrit", ["sa"; "संस्कृत"; "नमस्ते"; "धन्यवाद"; "कृपया"]);
    ("kashmiri", ["ks"; "कॉशुर"; "नमस्कार"; "शुक्रिया"; "मेहरबानी"]);
    ("nepali", ["ne"; "नेपाली"; "नमस्ते"; "धन्यवाद"; "कृपया"; "स्वागत"]);
    ("sinhala", ["si"; "සිංහල"; "ආයුබෝවන්"; "ස්තූතියි"; "කරුණාකර"]) ].

(** A Python [set] of strings: a duplicate-free list, [add] and [update]
    being [set_add] and [set_union]. *)
Definition str_set := set string.

(** The loop of [detect_languages_in_content] over the catalogue, from the
    set accumulated so far. *)
Fixpoint detect_loop (content_lower : string) (catalog : list (string * list string))
    (detected_languages : str_set) : str_set :=
  match catalog with
  | [] => detected_languages
  | (lang, indicators) :: rest =>
      detect_loop content_lower rest
        (if existsb (fun indicator => Text.contains indicator content_lower) indicators
         then set_add string_dec lang detected_languages
         else detected_languages)
  end.

Definition detect_languages_in_content (content : string) : str_set :=
  let content_lower := Text.str_lower content in
  detect_loop content_lower language_indicators (empty_set string).

(* ================================================================= *)
(** ** Regular expressions: the fragment of [re] the pattern taxonomy uses *)

Module Re.

(** One-character matchers: a literal (compared under [re.IGNORECASE]),
    [\s], and [.] (any character but a newline). *)
Inductive cclass := Lit (c : ascii) | Space | Dot.

Inductive quant := One | Star | Plus.

Definition regex := list (cclass * quant).

(** Reading a pattern string: [\s] is the space class, any other escaped
    character is itself, [.] is the dot, [*] and [+] quantify the
    character before them, everything else is a literal. *)
Fixpoint compile_aux (esc : bool) (pending : option cclass) (p : string) : regex :=
  let flush := match pending with Some a => [(a, One)] | None => [] end in
  match p with
  | EmptyString => flush
  | String c p' =>
      if esc then
        compile_aux false (Some (if Ascii.eqb c "s" then Space else Lit c)) p'
      else if Ascii.eqb c "\" then flush ++ compile_aux true None p'
      else if Ascii.eqb c "*" then
        match pending with
        | Some a => (a, Star) :: compile_aux false None p'
        | None => compile_aux false None p'
        end
      else if Ascii.eqb c "+" then
        match pending with
        | Some a => (a, Plus) :: compile_aux false None p'
        | None => compile_aux false None p'
        end
      else if Ascii.eqb c "." then flush ++ compile_aux false (Some Dot) p'
      else flush ++ compile_aux false (Some (Lit c)) p'
  end.

Definition compile (p : string) : regex := compile_aux false None p.

(** [\s] on ASCII: tab to carriage return, the four separators
    [\x1c]-[\x1f], and the space. *)
Definition is_space (c : ascii) : bool :=
  let n := N_of_ascii c in
  (((9 <=? n) && (n <=? 13)) || ((28 <=? n) && (n <=? 32)))%N.

(** A continuation byte of a multi-byte code point. *)
Definition is_cont (c : ascii) : bool :=
  let n := N_of_ascii c in ((128 <=? n) && (n <? 192))%N.

(** The continuation bytes at the front of [s], and what follows them. *)
Fixpoint take_cont (s : string) : string * string :=
  match s with
  | EmptyString => (EmptyString, EmptyString)
  | String c s' =>
      if is_cont c then let (t, r) := take_cont s' in (String c t, r)
      else (EmptyString, s)
  end.

(** Consume one character of the class: the text consumed and the rest. *)
Definition step (k : cclass) (s : string) : option (string * string) :=
  match s with
  | EmptyString => None
  | String c s' =>
      match k with
      | Lit a =>
          if Ascii.eqb (Text.lower_ascii a) (Text.lower_ascii c)
          then Some (String c EmptyString, s') else None
      | Space => if is_space c then Some (String c EmptyString, s') else None
      | Dot =>
          if Ascii.eqb c "010" then None
          else let (t, r) := take_cont s' in Some (String c t, r)
      end
  end.

(** Greedy repetition with backtracking: take one more character when the
    rest of the pattern still matches afterwards, else stop here. *)
Fixpoint star (fuel : nat) (k : cclass) (cont : string -> option (string * string))
    (s : string) : option (string * string) :=
  match fuel with
  | O => cont s
  | S fuel' =>
      match step k s with
      | Some (t, s') =>
          match star fuel' k cont s' with
          | Some (m, r) => Some ((t ++ m)%string, r)
          | None => cont s
          end
      | None => cont s
      end
  end.

(** Match the pattern at the front of [s]: the matched text and the rest. *)
Fixpoint match_here (re : regex) (s : string) : option (string * string) :=
  match re with
  | [] => Some (EmptyString, s)
  | (k, One) :: re' =>
      match step k s with
      | Some (t, s') =>
          match match_here re' s' with
          | Some (m, r) => Some ((t ++ m)%string, r)
          | None => None
          end
      | None => None
      end
  | (k, Star) :: re' => star (String.length s) k (match_here re') s
  | (k, Plus) :: re' =>
      match step k s with
      | Some (t, s') =>
          match star (String.length s') k (match_here re') s' with
          | Some (m, r) => Some ((t ++ m)%string, r)
          | None => None
          end
      | None => None
      end
  end.

(** The start of the next character of [s]. *)
Definition next_char (s : string) : string :=
  match s with
  | EmptyString => EmptyString
  | String _ s' => snd (take_cont s')
  end.

(** Scan left to right for non-overlapping matches. *)
Fixpoint findall_from (fuel : nat) (re : regex) (s : string) : list string :=
  match fuel with
  | O => []
  | S fuel' =>
      match match_here re s with
      | Some (m, r) =>
          match m with
          | EmptyString =>
              m :: match s with
                   | EmptyString => []
                   | String _ _ => findall_from fuel' re (next_char s)
                   end
          | String _ _ => m :: findall_from fuel' re r
          end
      | None =>
          match s with
          | EmptyString => []
          | String _ _ => findall_from fuel' re (next_char s)
          end
      end
  end.

(** [re.findall(pattern, content, re.IGNORECASE | re.MULTILINE)] for a
    pattern without groups: the list of matched texts. *)
Definition findall (pattern content : string) : list string :=
  findall_from (S (String.length content)) (compile pattern) content.

End Re.

(* ================================================================= *)
(** ** Dictionaries and fallible operations *)

(** A Python [dict] with string keys, in insertion order. *)
Definition dict (V : Type) := list (string * V).

Fixpoint dict_get {V : Type} (k : string) (d : dict V) : option V :=
  match d with
  | [] => None
  | (k', v) :: d' => if String.eqb k k' then Some v else dict_get k d'
  end.

(** [d[k] = v]. *)
Fixpoint dict_set {V : Type} (k : string) (v : V) (d : dict V) : dict V :=
  match d with
  | [] => [(k, v)]
  | (k', v') :: d' =>
      if String.eqb k k' then (k, v) :: d' else (k', v') :: dict_set k v d'
  end.

(** [d.values()]. *)
Definition dict_values {V : Type} (d : dict V) : list V := map snd d.

(** Truth value of a list, dictionary or set: non-empty. *)
Definition truthy {A : Type} (l : list A) : bool :=
  match l with [] => false | _ :: _ => true end.

Inductive exn :=
| TimeoutExpired | FileNotFoundError | OSError | UnicodeDecodeError | OtherException.

(** The outcome of a call that may raise. *)
Inductive result (A : Type) := Ok (a : A) | Raise (e : exn).
Arguments Ok {A} a.
Arguments Raise {A} e.

(* ================================================================= *)
(** ** RepositorySnapshot: the local directory tree *)

(** What reading a file yields: its text when the bytes are valid UTF-8; for
    bytes that are not, the text left when the invalid ones are dropped;
    nothing when the file cannot be opened or read. *)
Inductive payload :=
| Utf8 (text : string)
| Garbled (text : string)
| Unreadable.

#[warnings="-register-all"]
Inductive entry :=
| File (name : string) (data : payload)
| Dir (name : string) (children : list entry).

(** [open(p, 'r', encoding='utf-8', errors='ignore').read()]. *)
Definition read_ignore (d : payload) : result string :=
  match d with
  | Utf8 s => Ok s
  | Garbled s => Ok s
  | Unreadable => Raise OSError
  end.

(** [open(p, 'r', encoding='utf-8').read()]. *)
Definition read_strict (d : payload) : result string :=
  match d with
  | Utf8 s => Ok s
  | Garbled _ => Raise UnicodeDecodeError
  | Unreadable => Raise OSError
  end.

(** A path below the analysed directory: its components. *)
Definition path := list string.

(** [str(p.relative_to(directory))]. *)
Definition path_str (p : path) : string := Text.join_slash p.

(** The [files] of one directory listing. *)
Fixpoint files_of (es : list entry) : list (string * payload) :=
  match es with
  | [] => []
  | File n d :: es' => (n, d) :: files_of es'
  | Dir _ _ :: es' => files_of es'
  end.

(** [os.walk] below [root], top-down, after the in-place pruning
    [dirs[:] = [d for d in dirs if keep d]]: for every directory visited,
    its path and its files.  [walk_entry] is the walk of one entry of a
    listing: nothing for a file or a pruned directory. *)
Fixpoint walk_entry (keep : string -> bool) (root : path) (e : entry)
    : list (path * list (string * payload)) :=
  match e with
  | File _ _ => []
  | Dir n ch =>
      if keep n
      then (root ++ [n], files_of ch) :: flat_map (walk_entry keep (root ++ [n])) ch
      else []
  end.

Definition walk_dirs (keep : string -> bool) (root : path) (es : list entry)
    : list (path * list (string * payload)) :=
  flat_map (walk_entry keep root) es.

Definition os_walk (keep : string -> bool) (directory : list entry)
    : list (path * list (string * payload)) :=
  ([], files_of directory) :: walk_dirs keep [] directory.

(** ** Induction on trees *)

Section TreeInduction.

Variable P : entry -> Prop.
Hypothesis P_file : forall n d, P (File n d).
Hypothesis P_dir : forall n ch, Forall P ch -> P (Dir n ch).

(** Induction on a tree, with the property known of the children of a
    directory. *)
Fixpoint entry_tree_ind (e : entry) : P e :=
  match e with
  | File n d => P_file n d
  | Dir n ch =>
      P_dir n ch
        ((fix children (l : list entry) : Forall P l :=
            match l with
            | [] => Forall_nil P
            | x :: l' => Forall_cons x (entry_tree_ind x) (children l')
            end) ch)
  end.

End TreeInduction.

(* ================================================================= *)
(** ** FileDiscovery *)

(** A discovered file: its path below the directory and what reading it
    yields. *)
Record source_file := { file_path : path; file_data : payload }.

(** [d in ['_pycache_', 'node_modules']]. *)
Definition in_names (d : string) (names : list string) : bool :=
  existsb (String.eqb d) names.

(** The filter of [find_streamlit_files] on [dirs]. *)
Definition keep_source_dir (d : string) : bool :=
  negb (Text.startswith "." d) && negb (in_names d ["_pycache_"; "node_modules"]).

(** The body of [for file in files] in [find_streamlit_files]: what one
    file adds to [streamlit_files]. *)
Definition streamlit_candidate (root : path) (file : string * payload) : list source_file :=
  let (name, data) := file in
  if Text.endswith ".py" name then
    match read_ignore data with
    | Ok content =>
        if Text.contains "streamlit" (Text.lower content) || Text.contains "st." content
        then [ {| file_path := root ++ [name]; file_data := data |} ]
        else []
    | Raise _ => []
    end
  else [].

Definition find_streamlit_files (directory : list entry) : list source_file :=
  flat_map (fun '(root, files) => flat_map (streamlit_candidate root) files)
           (os_walk keep_source_dir directory).

(* ================================================================= *)
(** ** PatternDetector *)

(** The taxonomy [patterns] of [analyze_i18n_patterns]: category, then
    pattern type, then the patterns, all in declaration order. *)
Definition patterns : dict (dict (list string)) :=
  [ ("gettext",
      [ ("imports", ["import\s+gettext"; "from\s+gettext\s+import"]);
        ("functions", ["_\("; "gettext\("; "ngettext\("]);
        ("setup", ["gettext\..\(.\)"; "\.bindtextdomain\("; "\.textdomain\("]) ]);
    ("streamlit_i18n",
      [ ("imports", ["import\s+streamlit_i18n"; "from\s+streamlit_i18n"]);
        ("functions", ["i18n\("; "\.translate\("; "\.t\("]) ]);
    ("babel",
      [ ("imports", ["import\s+babel"; "from\s+babel"]);
        ("functions", ["Locale\("; "format_currency\("; "format_date\("]) ]);
    ("custom_translation",
      [ ("dictionaries", ["translations\s*=\s*{"; "languages\s*=\s*{"; "TRANSLATIONS\s*="]);
        ("functions", ["translate\("; "get_text\("; "tr\("]) ]);
    ("language_detection",
      [ ("patterns", ["st\.selectbox.*lang"; "language.*select"; "locale"; "LANG"]) ]) ].

(** [for pattern in pattern_list]: the matches of one pattern type. *)
Definition type_matches (content : string) (pattern_list : list string) : list string :=
  fold_left
    (fun matches pattern =>
       let found := Re.findall pattern content in
       if truthy found then matches ++ found else matches)
    pattern_list [].

(** [for pattern_type, pattern_list in pattern_dict.items()]. *)
Definition category_matches (content : string) (pattern_dict : dict (list string))
    : dict (list string) :=
  fold_left
    (fun category_results '(pattern_type, pattern_list) =>
       let matches := type_matches content pattern_list in
       if truthy matches then dict_set pattern_type matches category_results
       else category_results)
    pattern_dict [].

(** [for category, pattern_dict in patterns.items()]. *)
Definition content_patterns (content : string) : dict (dict (list string)) :=
  fold_left
    (fun results '(category, pattern_dict) =>
       let category_results := category_matches content pattern_dict in
       if truthy category_results then dict_set category category_results results
       else results)
    patterns [].

Definition analyze_i18n_patterns (file : source_file) : dict (dict (list string)) :=
  match read_ignore (file_data file) with
  | Raise _ => []
  | Ok content => content_patterns content
  end.

(* ================================================================= *)
(** ** TranslationFileIndex *)

(** [any(keyword in file.lower() for keyword in
    ['lang', 'translation', 'locale', 'i18n'])]. *)
Definition has_i18n_keyword (file : string) : bool :=
  existsb (fun keyword => Text.contains keyword (Text.lower file))
          ["lang"; "translation"; "locale"; "i18n"].

(** The [if]/[elif] chain of [find_translation_files]: the key of the
    bucket the file is appended to, if any. *)
Definition translation_bucket (file : string) : option string :=
  if Text.endswith ".po" file then Some "po_files"
  else if Text.endswith ".mo" file then Some "mo_files"
  else if Text.endswith ".json" file && has_i18n_keyword file then Some "json_translations"
  else if (Text.endswith ".yml" file || Text.endswith ".yaml" file) && has_i18n_keyword file
       then Some "yaml_translations"
  else if Text.endswith ".properties" file then Some "properties_files"
  else None.

(** [d[k].append(x)]. *)
Fixpoint dict_append {V : Type} (k : string) (x : V) (d : dict (list V)) : dict (list V) :=
  match d with
  | [] => []
  | (k', xs) :: d' =>
      if String.eqb k k' then (k', xs ++ [x]) :: d' else (k', xs) :: dict_append k x d'
  end.

(** The filter of [find_translation_files] on [dirs]. *)
Definition keep_visible_dir (d : string) : bool := negb (Text.startswith "." d).

Definition empty_translation_files : dict (list path) :=
  [ ("po_files", []); ("mo_files", []); ("json_translations", []);
    ("yaml_translations", []); ("properties_files", []) ].

(** The body of [for file in files] in [find_translation_files]. *)
Definition classify_file (root : path) (translation_files : dict (list path))
    (file : string * payload) : dict (list path) :=
  match translation_bucket (fst file) with
  | Some key => dict_append key (root ++ [fst file]) translation_files
  | None => translation_files
  end.

Definition find_translation_files (directory : list entry) : dict (list path) :=
  fold_left
    (fun translation_files '(root, files) =>
       fold_left (classify_file root) files translation_files)
    (os_walk keep_visible_dir directory)
    empty_translation_files.


(** Whether the file is assigned to the bucket [key]. *)
Definition in_bucket (key file : string) : bool :=
  match translation_bucket file with
  | Some k => String.eqb key k
  | None => false
  end.

(** The paths of the files of the walk that are assigned to [key], in the
    order of the walk. *)
Definition bucket_members (key : string) (directory : list entry) : list path :=
  flat_map
    (fun '(root, files) =>
       flat_map (fun file : string * payload =>
                   if in_bucket key (fst file) then [root ++ [fst file]] else [])
                files)
    (os_walk keep_visible_dir directory).

(* ================================================================= *)
(** ** DependencyInspector *)

Definition i18n_packages : list string :=
  [ "streamlit-i18n"; "babel"; "gettext"; "python-gettext";
    "flask-babel"; "django-rosetta"; "polib"; "translate" ].

Definition manifest_names : list string :=
  [ "requirements.txt"; "requirements.in"; "pyproject.toml"; "setup.py"; "Pipfile" ].

Record requirements_report := {
  requirements_files : list string;
  found_packages : list string          (* the value under 'i18n_packages' *)
}.

(** The entry called [name] in a directory listing: [(Path(directory) /
    name).exists()] is [Some]. *)
Fixpoint lookup_entry (name : string) (es : list entry) : option entry :=
  match es with
  | [] => None
  | e :: es' =>
      let n := match e with File n _ => n | Dir n _ => n end in
      if String.eqb name n then Some e else lookup_entry name es'
  end.

(** [open(req_path, 'r', encoding='utf-8').read()]: opening a directory
    raises. *)
Definition read_manifest (e : entry) : result string :=
  match e with
  | File _ d => read_strict d
  | Dir _ _ => Raise OSError
  end.

(** [for package in i18n_packages: if package.lower() in content.lower()]:
    [flask-babel] holds a [k], so the lower case is [str_lower]. *)
Definition packages_in (content : string) : list string :=
  filter (fun package => Text.contains (Text.str_lower package) (Text.str_lower content))
         i18n_packages.

(** The body of [for req_file in [...]] in [analyze_requirements_file]. *)
Definition inspect_manifest (directory : list entry) (acc : requirements_report)
    (req_file : string) : requirements_report :=
  match lookup_entry req_file directory with
  | None => acc
  | Some e =>
      let files := requirements_files acc ++ [req_file] in
      match read_manifest e with
      | Ok content =>
          {| requirements_files := files;
             found_packages := found_packages acc ++ packages_in content |}
      | Raise _ =>
          {| requirements_files := files; found_packages := found_packages acc |}
      end
  end.

Definition analyze_requirements_file (directory : list entry) : requirements_report :=
  fold_left (inspect_manifest directory) manifest_names
            {| requirements_files := []; found_packages := [] |}.

(** What the manifest [req_file] adds to the packages found. *)
Definition manifest_packages (directory : list entry) (req_file : string) : list string :=
  match lookup_entry req_file directory with
  | Some e =>
      match read_manifest e with
      | Ok content => packages_in content
      | Raise _ => []
      end
  | None => []
  end.

(** [(Path(directory) / req_file).exists()]. *)
Definition manifest_exists (directory : list entry) (req_file : string) : bool :=
  match lookup_entry req_file directory with Some _ => true | None => false end.


(* ================================================================= *)
(** ** ScoringEngine and ReportAssembler *)

Record report := {
  is_multilingual : bool;
  confidence_score : Z;
  streamlit_files : list string;
  i18n_patterns : dict (dict (dict (list string)));
  translation_files : dict (list string);
  detected_languages : str_set;
  requirements_analysis : requirements_report;
  recommendations : list string
}.

(** The body of [for file_path in streamlit_files] in
    [generate_multilingual_report], on the pair
    [(all_patterns, all_languages)]. *)
Definition analyze_candidate
    (acc : dict (dict (dict (list string))) * str_set) (file : source_file)
    : dict (dict (dict (list string))) * str_set :=
  let (all_patterns, all_languages) := acc in
  let patterns := analyze_i18n_patterns file in
  let all_patterns :=
    if truthy patterns then dict_set (path_str (file_path file)) patterns all_patterns
    else all_patterns in
  match read_ignore (file_data file) with
  | Ok content =>
      let languages := detect_languages_in_content content in
      (all_patterns, set_union string_dec all_languages languages)
  | Raise _ => (all_patterns, all_languages)
  end.

(** [any(translation_files.values())]. *)
Definition any_values {V : Type} (d : dict (list V)) : bool :=
  existsb truthy (dict_values d).

Definition rec_adopt_library : string :=
  "Consider implementing internationalization for English and Indic languages using libraries like streamlit-i18n or gettext".
Definition rec_language_widget : string :=
  "Add language selection widget with English and Indic language options".
Definition rec_create_translations : string :=
  "Create translation files for target Indic languages (Hindi, Bengali, Tamil, etc.)".
Definition rec_unicode_fonts : string :=
  "Consider using Unicode fonts that support Indic scripts".
Definition rec_document_dependencies : string :=
  "Document your i18n dependencies in requirements.txt".
Definition rec_standard_formats : string :=
  "Consider using standard translation file formats (.po, .json) for Indic languages".
Definition rec_unicode_support : string :=
  "Ensure proper Unicode support for Indic scripts in your application".
Definition rec_test_inputs : string :=
  "Test your application with different Indic language inputs".

(** Lines 301-311: the additive score. *)
Definition raw_score (all_patterns : dict (dict (dict (list string))))
    (translation_files : dict (list path)) (requirements_analysis : requirements_report)
    (all_languages : str_set) : Z :=
  let score := 0%Z in
  let score := if truthy all_patterns then (score + 40)%Z else score in
  let score := if any_values translation_files then (score + 30)%Z else score in
  let score := if truthy (found_packages requirements_analysis) then (score + 20)%Z else score in
  let score := if (1 <? List.length all_languages)%nat then (score + 10)%Z else score in
  score.

(** Lines 316-329: the recommendations. *)
Definition make_recommendations (multilingual : bool)
    (translation_files : dict (list path)) (requirements_analysis : requirements_report)
    : list string :=
  if negb multilingual then
    [ rec_adopt_library; rec_language_widget; rec_create_translations; rec_unicode_fonts ]
  else
    (if negb (truthy (found_packages requirements_analysis))
     then [rec_document_dependencies] else [])
    ++ (if negb (any_values translation_files) then [rec_standard_formats] else [])
    ++ [ rec_unicode_support; rec_test_inputs ].

Definition generate_multilingual_report (directory : list entry) : report :=
  let streamlit_files := find_streamlit_files directory in
  let '(all_patterns, all_languages) :=
    fold_left analyze_candidate streamlit_files ([], empty_set string) in
  let translation_files := find_translation_files directory in
  let requirements_analysis := analyze_requirements_file directory in
  let score := raw_score all_patterns translation_files requirements_analysis all_languages in
  let multilingual := (30 <=? score)%Z in
  {| is_multilingual := multilingual;
     confidence_score := Z.min score 100;
     streamlit_files := map (fun f => path_str (file_path f)) streamlit_files;
     i18n_patterns := all_patterns;
     translation_files := map (fun '(k, v) => (k, map path_str v)) translation_files;
     detected_languages := all_languages;
     requirements_analysis := requirements_analysis;
     recommendations := make_recommendations multilingual translation_files requirements_analysis |}.

(* ================================================================= *)
(** ** RepositoryFetcher *)

(** What the fetcher does to the outside world, in the order it does it. *)
Inductive event :=
| GitClone (git_url : string)
| HttpGet (zip_url : string)
| StError.

(** The outside world of one fetch. *)
Record world := {
  (** [subprocess.run(['git', 'clone', git_url, temp_dir], timeout=60)]: the
      return code, or the exception raised. *)
  run_git_clone : string -> result Z;
  (** [requests.get(zip_url, timeout=30)]: status code and body, or the
      exception raised. *)
  requests_get : string -> result (Z * string);
  (** Lines 68-83 on a body: write it, extract it, flatten the wrapper
      directory, remove the archive. *)
  unpack : string -> result unit
}.

(** A computation that logs events and may raise. *)
Definition M (A : Type) : Type := list event * result A.

Definition ret {A : Type} (a : A) : M A := ([], Ok a).

Definition bind {A B : Type} (m : M A) (f : A -> M B) : M B :=
  match m with
  | (t, Ok a) => let (t', r) := f a in (t ++ t', r)
  | (t, Raise e) => (t, Raise e)
  end.

Notation "x <- m ;; k" := (bind m (fun x => k))
  (at level 61, m at next level, right associativity).

(** An external call: the event, then its outcome. *)
Definition call {A : Type} (ev : event) (r : result A) : M A := ([ev], r).

(** [try: m  except <handled>: h]. *)
Definition try_except {A : Type} (m : M A) (handled : exn -> bool) (h : M A) : M A :=
  match m with
  | (t, Raise e) => if handled e then let (t', r) := h in (t ++ t', r) else (t, Raise e)
  | ok => ok
  end.

(** [except (subprocess.TimeoutExpired, FileNotFoundError, OSError)]. *)
Definition clone_errors (e : exn) : bool :=
  match e with
  | TimeoutExpired | FileNotFoundError | OSError => true
  | _ => false
  end.

(** [except Exception]. *)
Definition any_exception (e : exn) : bool := true.

(** [parts[:-2]], [parts[-2]] and [parts[-1]]. *)
Definition but_last_two (parts : list string) : list string :=
  firstn (List.length parts - 2) parts.
Definition last_but_one (parts : list string) : string :=
  nth (List.length parts - 2) parts EmptyString.
Definition last_part (parts : list string) : string :=
  nth (List.length parts - 1) parts EmptyString.

(** Lines 46-62: the archive URLs, for a URL with at least two parts. *)
Definition possible_urls (repo_url : string) : list string :=
  let parts := Text.split_slash (Text.rstrip_slash repo_url) in
  let protocol_and_domain := Text.join_slash (but_last_two parts) in
  let owner := last_but_one parts in
  let repo := last_part parts in
  let repo := if Text.endswith ".git" repo then Text.drop_last 4 repo else repo in
  let base := (protocol_and_domain ++ "/" ++ owner ++ "/" ++ repo)%string in
  [ (base ++ "/-/archive/main/" ++ repo ++ "-main.zip")%string;
    (base ++ "/-/archive/master/" ++ repo ++ "-master.zip")%string;
    (base ++ "/repository/archive.zip?ref=main")%string;
    (base ++ "/repository/archive.zip?ref=master")%string ].

(** [for zip_url in possible_urls]: [Some true] when the loop returned
    [True], [None] when it ran to its end. *)
Fixpoint try_archives (w : world) (urls : list string) : M (option bool) :=
  match urls with
  | [] => ret None
  | zip_url :: rest =>
      attempt <-
        try_except
          (response <- call (HttpGet zip_url) (requests_get w zip_url) ;;
           if (fst response =? 200)%Z then
             _ <- (([], unpack w (snd response)) : M unit) ;;
             ret (Some true)
           else ret None)
          any_exception
          (ret None) ;;
      match attempt with
      | Some b => ret (Some b)
      | None => try_archives w rest
      end
  end.

(** The guard of line 44. *)
Definition archive_guard (repo_url : string) : bool :=
  Text.contains "//" repo_url &&
  (Text.contains "gitlab" (Text.lower repo_url) || Text.contains "git" (Text.lower repo_url)).

(** The body of the outer [try] of [clone_gitlab_repo]. *)
Definition clone_body (w : world) (repo_url : string) : M bool :=
  let git_url :=
    if negb (Text.endswith ".git" repo_url) then (repo_url ++ ".git")%string else repo_url in
  cloned <-
    try_except
      (returncode <- call (GitClone git_url) (run_git_clone w git_url) ;;
       if (returncode =? 0)%Z then ret (Some true) else ret None)
      clone_errors
      (ret None) ;;
  match cloned with
  | Some b => ret b
  | None =>
      fetched <-
        try_except
          (if archive_guard repo_url then
             let parts := Text.split_slash (Text.rstrip_slash repo_url) in
             if (2 <=? List.length parts)%nat then try_archives w (possible_urls repo_url)
             else ret None
           else ret None)
          any_exception
          (ret None) ;;
      match fetched with
      | Some b => ret b
      | None => ret false
      end
  end.

(** [clone_gitlab_repo] with its outer handler, which reports the error
    and returns [False]. *)
Definition clone_gitlab_repo (w : world) (repo_url : string) : M bool :=
  try_except (clone_body w repo_url) any_exception
             (_ <- call StError (Ok tt) ;; ret false).

(** The URL the clone is run on: [git_url] of [clone_gitlab_repo]. *)
Definition git_url_of (repo_url : string) : string :=
  if negb (Text.endswith ".git" repo_url) then (repo_url ++ ".git")%string else repo_url.

(** An archive candidate succeeds when the answer is HTTP 200 and its body
    is written, extracted and flattened without an exception. *)
Definition archive_succeeds (w : world) (zip_url : string) : bool :=
  match requests_get w zip_url with
  | Ok (status, body) =>
      (status =? 200)%Z && match unpack w body with Ok _ => true | Raise _ => false end
  | Raise _ => false
  end.

(** The candidates of a list that are tried: each in turn, up to and
    including the first that succeeds. *)
Fixpoint until_success (ok : string -> bool) (urls : list string) : list string :=
  match urls with
  | [] => []
  | u :: rest => u :: (if ok u then [] else until_success ok rest)
  end.

(** Whether the archive strategy is entered: the guard of line 44 and the
    length test of line 47. *)
Definition archive_applies (repo_url : string) : bool :=
  archive_guard repo_url &&
  (2 <=? List.length (Text.split_slash (Text.rstrip_slash repo_url)))%nat.

(** ** Trees without their unreadable files *)



(** ** What a pattern accepts *)

(** [reaches k s s']: from [s], consuming characters of the class [k] one
    after the other leaves [s']. *)
Inductive reaches (k : Re.cclass) : string -> string -> Prop :=
| reaches_here (s : string) : reaches k s s
| reaches_next (s t s1 s2 : string) :
    Re.step k s = Some (t, s1) -> reaches k s1 s2 -> reaches k s s2.

(** [accepts re s]: some prefix of [s] is in the language of [re]. *)
Inductive accepts : Re.regex -> string -> Prop :=
| accepts_nil (s : string) : accepts [] s
| accepts_one (k : Re.cclass) (re : Re.regex) (s t s' : string) :
    Re.step k s = Some (t, s') -> accepts re s' -> accepts ((k, Re.One) :: re) s
| accepts_star (k : Re.cclass) (re : Re.regex) (s s' : string) :
    reaches k s s' -> accepts re s' -> accepts ((k, Re.Star) :: re) s
| accepts_plus (k : Re.cclass) (re : Re.regex) (s t s1 s' : string) :
    Re.step k s = Some (t, s1) -> reaches k s1 s' -> accepts re s' ->
    accepts ((k, Re.Plus) :: re) s.

(** The pattern of a literal word. *)
Fixpoint literal (word : string) : Re.regex :=
  match word with
  | EmptyString => []
  | String c word' => (Re.Lit c, Re.One) :: literal word'
  end.

(** Every character of [ws] is white space. *)
Fixpoint all_space (ws : string) : bool :=
  match ws with
  | EmptyString => true
  | String c ws' => Re.is_space c && all_space ws'
  end.

(** Non-empty white space. *)
Definition blank (ws : string) : Prop := ws <> EmptyString /\ all_space ws = true.

(** A gettext-style import: [import gettext] or [from gettext import], in
    any letter case, with any white space between the words. *)
Definition gettext_style_import (content : string) : Prop :=
  (exists pre kw ws g post,
      content = (pre ++ kw ++ ws ++ g ++ post)%string /\
      Text.lower kw = "import" /\ blank ws /\ Text.lower g = "gettext")
  \/
  (exists pre f ws1 g ws2 kw post,
      content = (pre ++ f ++ ws1 ++ g ++ ws2 ++ kw ++ post)%string /\
      Text.lower f = "from" /\ blank ws1 /\ Text.lower g = "gettext" /\
      blank ws2 /\ Text.lower kw = "import").

(** Whether every match of the pattern takes at least one character: some
    item is not starred. *)
Definition consumes (re : Re.regex) : bool :=
  existsb (fun item : Re.cclass * Re.quant =>
             match snd item with Re.Star => false | _ => true end) re.

(** ** Where a walk goes *)

(** [descends keep es rel files]: from the listing [es], entering the
    directories [rel] one inside the other, each of them kept by the
    filter, leads to a directory whose files are [files]. *)
Inductive descends (keep : string -> bool)
    : list entry -> path -> list (string * payload) -> Prop :=
| descends_here (es : list entry) : descends keep es [] (files_of es)
| descends_into (es : list entry) (n : string) (ch : list entry) (rel : path)
    (files : list (string * payload)) :
    In (Dir n ch) es -> keep n = true -> descends keep ch rel files ->
    descends keep es (n :: rel) files.

(** An entry of the aggregate of pattern matches: the non-empty result of
    a file of [files], under the path of that file. *)
Definition entry_of (files : list source_file)
    (e : string * dict (dict (list string))) : Prop :=
  snd e <> [] /\
  exists f, In f files /\ fst e = path_str (file_path f) /\ snd e = analyze_i18n_patterns f.

(** ** The presentation layer: what [main] computes from the URL *)

(** [repo_url.startswith(('http://', 'https://'))]: the test of lines 378
    and 381 that lets a URL through to the fetcher. *)
Definition url_is_complete (repo_url : string) : bool :=
  Text.startswith "http://" repo_url || Text.startswith "https://" repo_url.

(** [f"multilingual_report_{repo_url.split('/')[-1]}.json"]: the file name
    of the exported report, line 453. *)
Definition export_file_name (repo_url : string) : string :=
  ("multilingual_report_" ++ last_part (Text.split_slash repo_url) ++ ".json")%string.

(** ** The repository URL without its trailing slashes and [.git] *)

Definition repo_root (repo_url : string) : string :=
  let s := Text.rstrip_slash repo_url in
  if Text.endswith ".git" s then Text.drop_last 4 s else s.

(** [repo] of [clone_gitlab_repo]: the last part, without [.git]. *)
Definition repo_name (repo_url : string) : string :=
  let repo := last_part (Text.split_slash (Text.rstrip_slash repo_url)) in
  if Text.endswith ".git" repo then Text.drop_last 4 repo else repo.

(** The name of an entry of a listing. *)
Definition entry_name (e : entry) : string :=
  match e with File n _ => n | Dir n _ => n end.

(** The result of the pattern detector with every match in lower case. *)
Definition lower_matches (results : dict (dict (list string))) : dict (dict (list string)) :=
  map (fun '(category, category_results) =>
         (category,
          map (fun '(pattern_type, matches) => (pattern_type, map Text.lower matches))
              category_results))
      results.

(** Lower-casing both components of a result of the matcher. *)
Definition lower_pair (x : string * string) : string * string :=
  (Text.lower (fst x), Text.lower (snd x)).

(** ** Auxiliary definitions of the statements *)

(** What one file adds to the bucket [key]. *)
Definition select_file (key : string) (root : path) (file : string * payload) : list path :=
  if in_bucket key (fst file) then [root ++ [fst file]] else [].


(** The loops that keep the non-empty results under their keys:
    [if v: acc[key] = v] for [v = f x]. *)
Definition keep_truthy {X Y : Type} (f : X -> list Y)
    (acc : dict (list Y)) (item : string * X) : dict (list Y) :=
  let (key, x) := item in
  let v := f x in
  if truthy v then dict_set key v acc else acc.

(** The pattern types of the gettext category. *)
Definition gettext_dict : dict (list string) :=
  [ ("imports", ["import\s+gettext"; "from\s+gettext\s+import"]);
    ("functions", ["_\("; "gettext\("; "ngettext\("]);
    ("setup", ["gettext\..\(.\)"; "\.bindtextdomain\("; "\.textdomain\("]) ].

(** The key of a candidate in the aggregate of pattern matches. *)
Definition candidate_key (f : source_file) : string := path_str (file_path f).

(** ** Bytes and code points *)

(** Every byte of [s] satisfies [p]. *)
Fixpoint all_bytes (p : ascii -> bool) (s : string) : bool :=
  match s with
  | EmptyString => true
  | String c s' => p c && all_bytes p s'
  end.

(** A byte of the ASCII range. *)
Definition is_ascii (c : ascii) : bool := (N_of_ascii c <? 128)%N.

(** The first byte of U+0130 or of U+212A. *)
Definition is_fold_lead (c : ascii) : bool := Ascii.eqb c "196" || Ascii.eqb c "226".

(** A name that starts a code point and holds no first byte of U+0130 or
    U+212A, as every name of the two catalogues does. *)
Definition searchable (needle : string) : bool :=
  match needle with
  | EmptyString => false
  | String c _ => negb (Re.is_cont c)
  end && all_bytes (fun c => negb (is_fold_lead c)) needle.

(** The last byte of [n] is [i]. *)
Fixpoint last_is_i (n : string) : bool :=
  match n with
  | EmptyString => false
  | String c EmptyString => Ascii.eqb c "i"
  | String _ n' => last_is_i n'
  end.

(** An ASCII name without [k] that does not end in [i]: no part of it is
    the lower case of U+0130 or of U+212A. *)
Definition plain_name (needle : string) : bool :=
  all_bytes (fun c => is_ascii c && negb (Ascii.eqb c "k")) needle &&
  negb (last_is_i needle) &&
  negb (String.eqb needle "").

(** The starts of U+0130 and U+212A that lack their last byte. *)
Definition open_tail (v : string) : Prop :=
  v = "" \/ v = String "196" "" \/ v = String "226" "" \/
  v = String "226" (String "132" "").

(** The UTF-8 encodings of U+0130, capital I with dot above, and of
    U+212A, the Kelvin sign. *)
Definition dotted_capital_I : string := String "196" (String "176" "").
Definition kelvin_sign : string := String "226" (String "132" (String "170" "")).

(** ** Sample worlds and repositories *)

(** A world in which [git] is missing, the [main] archive is not found and
    the [master] archive is served and unpacks. *)
Definition world_master_archive : world :=
  {| run_git_clone := fun _ => Raise FileNotFoundError;
     requests_get := fun zip_url =>
       if String.eqb zip_url
            "https://gitlab.com/group/project/-/archive/master/project-master.zip"
       then Ok (200%Z, "PK") else Ok (404%Z, "");
     unpack := fun _ => Ok tt |}.

(** A world in which the clone exits with an error and every archive URL
    answers HTTP 200 with a body that is not a zip archive. *)
Definition world_bad_archives : world :=
  {| run_git_clone := fun _ => Ok 128%Z;
     requests_get := fun _ => Ok (200%Z, "<html>Sign in</html>");
     unpack := fun _ => Raise OtherException |}.

(** A Streamlit application that imports gettext, with a message
    catalogue under [locale]. *)
Definition repo_with_gettext : list entry :=
  [ File "app.py" (Utf8 "import streamlit as st
import gettext");
    Dir "locale" [ File "messages.po" (Utf8 "msgid") ] ].

(* ================================================================= *)
(** * Properties *)

Arguments Re.findall : simpl never.
Arguments type_matches : simpl never.
Arguments category_matches : simpl never.
Arguments content_patterns : simpl never.
Arguments analyze_i18n_patterns : simpl never.
Arguments detect_languages_in_content : simpl never.
Arguments possible_urls : simpl never.
Arguments language_indicators : simpl never.

(** ** The model on sample inputs *)

Example findall_import_gettext :
  Re.findall "import\s+gettext" "Import  	GetText; import gettext
import
gettext importgettext"
  = ["Import  	GetText"; "import gettext"; "import
gettext"].
Proof. vm_compute. reflexivity. Qed.

Example findall_selectbox :
  Re.findall "st\.selectbox.*lang" "st.selectbox('x', lang) lang
 st.selectbox lan
st.SelectBox làng lang"
  = ["st.selectbox('x', lang) lang"; "st.SelectBox làng lang"].
Proof. vm_compute. reflexivity. Qed.

Example findall_gettext_setup :
  Re.findall "gettext\..\(.\)" "gettext.a(b) gettext.é(ü) gettext.ab(c) gettext.
(c)"
  = ["gettext.a(b)"; "gettext.é(ü)"].
Proof. vm_compute. reflexivity. Qed.

Example findall_translations_dict :
  Re.findall "translations\s*=\s*{" "translations={ Translations  =  { translations = x"
  = ["translations={"; "Translations  =  {"].
Proof. vm_compute. reflexivity. Qed.

Example possible_urls_nested_group :
  possible_urls "https://code.swecha.org/soai2025/soai-hackathon/arogya-lens.git/"
  = [ "https://code.swecha.org/soai2025/soai-hackathon/arogya-lens/-/archive/main/arogya-lens-main.zip";
      "https://code.swecha.org/soai2025/soai-hackathon/arogya-lens/-/archive/master/arogya-lens-master.zip";
      "https://code.swecha.org/soai2025/soai-hackathon/arogya-lens/repository/archive.zip?ref=main";
      "https://code.swecha.org/soai2025/soai-hackathon/arogya-lens/repository/archive.zip?ref=master" ].
Proof. vm_compute. reflexivity. Qed.

Example translation_files_sample :
  find_translation_files
    [ Dir ".hidden" [File "a.po" Unreadable];
      Dir "x" [ File "Lang.json" Unreadable; File "a.yml" Unreadable;
                File "i18n.yaml" Unreadable; File "b.properties" Unreadable;
                File "data.json" Unreadable ];
      File "fr.mo" Unreadable ]
  = [ ("po_files", []); ("mo_files", [["fr.mo"]]);
      ("json_translations", [["x"; "Lang.json"]]);
      ("yaml_translations", [["x"; "i18n.yaml"]]);
      ("properties_files", [["x"; "b.properties"]]) ].
Proof. vm_compute. reflexivity. Qed.

Example detect_kelvin_sign :
  detect_languages_in_content (kelvin_sign ++ "s")%string = ["kashmiri"] /\
  detect_languages_in_content ("H" ++ dotted_capital_I)%string = ["hindi"] /\
  Text.str_lower ("H" ++ dotted_capital_I)%string =
    String "h" (String "i" (String "204" (String "135" ""))).
Proof. vm_compute. repeat split. Qed.

Example packages_in_kelvin_sign :
  packages_in ("flas" ++ kelvin_sign ++ "-babel==4.0")%string = ["babel"; "flask-babel"] /\
  packages_in "Flask-Babel==4.0" = ["babel"; "flask-babel"] /\
  packages_in "flas-babel" = ["babel"].
Proof. vm_compute. repeat split. Qed.

Example report_sample :
  generate_multilingual_report repo_with_gettext
  = {| is_multilingual := true;
       confidence_score := 80;
       streamlit_files := ["app.py"];
       i18n_patterns := [("app.py", [("gettext", [("imports", ["import gettext"])])])];
       translation_files :=
         [ ("po_files", ["locale/messages.po"]); ("mo_files", []);
           ("json_translations", []); ("yaml_translations", []);
           ("properties_files", []) ];
       detected_languages := ["assamese"; "oriya"; "malayalam"; "telugu"];
       requirements_analysis := {| requirements_files := []; found_packages := [] |};
       recommendations :=
         [ rec_document_dependencies; rec_unicode_support; rec_test_inputs ] |}.
Proof. vm_compute. reflexivity. Qed.

(** ** Strings *)

Section TextFacts.

Local Open Scope string_scope.

Lemma append_nil_r (s : string) : s ++ "" = s.
Proof. induction s as [|c s IH]; simpl; [reflexivity | now rewrite IH]. Qed.

Lemma append_assoc (a b c : string) : (a ++ b) ++ c = a ++ (b ++ c).
Proof. induction a as [|x a IH]; simpl; [reflexivity | now rewrite IH]. Qed.

Lemma length_append (a b : string) :
  String.length (a ++ b) = (String.length a + String.length b)%nat.
Proof. induction a as [|x a IH]; simpl; [reflexivity | now rewrite IH]. Qed.

Lemma lower_append (a b : string) :
  Text.lower (a ++ b) = Text.lower a ++ Text.lower b.
Proof. induction a as [|x a IH]; simpl; [reflexivity | now rewrite IH]. Qed.

Lemma startswith_append (p t : string) : Text.startswith p (p ++ t) = true.
Proof.
  induction p as [|c p IH]; simpl; [reflexivity|].
  now rewrite Ascii.eqb_refl, IH.
Qed.

Lemma startswith_inv (p s : string) :
  Text.startswith p s = true -> exists t, s = p ++ t.
Proof.
  revert s; induction p as [|c p IH]; intros s H.
  - now exists s.
  - destruct s as [|d s]; simpl in H; [discriminate|].
    apply andb_true_iff in H as [Hc Hp].
    apply Ascii.eqb_eq in Hc; subst d.
    destruct (IH _ Hp) as [t ->]. now exists t.
Qed.

Lemma startswith_iff (p s : string) :
  Text.startswith p s = true <-> exists t, s = p ++ t.
Proof.
  split; [apply startswith_inv | intros [t ->]; apply startswith_append].
Qed.

Lemma contains_intro (needle pre post : string) :
  Text.contains needle (pre ++ needle ++ post) = true.
Proof.
  induction pre as [|c pre IH]; simpl.
  - pose proof (startswith_append needle post) as H.
    destruct (needle ++ post); simpl; rewrite H; reflexivity.
  - rewrite IH. apply orb_true_r.
Qed.

Lemma contains_inv (needle hay : string) :
  Text.contains needle hay = true -> exists pre post, hay = pre ++ needle ++ post.
Proof.
  induction hay as [|c hay IH]; simpl; intros H.
  - rewrite orb_false_r in H. apply startswith_inv in H as [t ->].
    now exists "", t.
  - apply orb_true_iff in H as [H | H].
    + apply startswith_inv in H as [t ->]. now exists "", t.
    + destruct (IH H) as (pre & post & ->). now exists (String c pre), post.
Qed.

Lemma contains_iff (needle hay : string) :
  Text.contains needle hay = true <-> exists pre post, hay = pre ++ needle ++ post.
Proof.
  split; [apply contains_inv | intros (pre & post & ->); apply contains_intro].
Qed.

Lemma rev_append (a b : string) : Text.rev (a ++ b) = Text.rev b ++ Text.rev a.
Proof.
  induction a as [|c a IH]; simpl.
  - now rewrite append_nil_r.
  - now rewrite IH, append_assoc.
Qed.

Lemma rev_involutive (s : string) : Text.rev (Text.rev s) = s.
Proof.
  induction s as [|c s IH]; simpl; [reflexivity|].
  now rewrite rev_append, IH.
Qed.

Lemma endswith_iff (p s : string) :
  Text.endswith p s = true <-> exists t, s = t ++ p.
Proof.
  unfold Text.endswith. rewrite startswith_iff. split.
  - intros [t H]. exists (Text.rev t).
    rewrite <- (rev_involutive s), H, rev_append, rev_involutive. reflexivity.
  - intros [t ->]. exists (Text.rev t). apply rev_append.
Qed.

End TextFacts.

(** ** Lower case beyond ASCII *)

Section LowerCaseFacts.

Local Open Scope string_scope.

Lemma str_lower_dotted_I (s : string) :
  Text.str_lower (String "196" (String "176" s)) =
  String "i" (String "204" (String "135" (Text.str_lower s))).
Proof. reflexivity. Qed.

Lemma str_lower_kelvin (s : string) :
  Text.str_lower (String "226" (String "132" (String "170" s))) =
  String "k" (Text.str_lower s).
Proof. reflexivity. Qed.

(** Everywhere else the text is lower-cased byte by byte. *)
Lemma str_lower_plain (c : ascii) (s : string) :
  Ascii.eqb c "196" && Text.startswith (String "176" "") s = false ->
  Ascii.eqb c "226" && Text.startswith (String "132" (String "170" "")) s = false ->
  Text.str_lower (String c s) = String (Text.lower_ascii c) (Text.str_lower s).
Proof.
  intros H1 H2. destruct s as [|c1 s]; [reflexivity|].
  cbn [Text.str_lower]. cbn [Text.startswith] in H1, H2.
  rewrite andb_true_r in H1. rewrite (Ascii.eqb_sym "176" c1) in H1. rewrite H1.
  destruct s as [|c2 s]; [reflexivity|].
  rewrite andb_true_r in H2.
  rewrite (Ascii.eqb_sym "132" c1), (Ascii.eqb_sym "170" c2), andb_assoc in H2.
  rewrite H2. reflexivity.
Qed.

(** Bytes outside ASCII have no case, and no letter becomes one. *)
Lemma is_ascii_lower (c : ascii) : is_ascii (Text.lower_ascii c) = is_ascii c.
Proof. destruct c as [[] [] [] [] [] [] [] []]; reflexivity. Qed.

Lemma lower_ascii_high (c : ascii) : is_ascii c = false -> Text.lower_ascii c = c.
Proof. destruct c as [[] [] [] [] [] [] [] []]; intros H; try reflexivity; discriminate H. Qed.

Lemma eqb_lower_ascii (c x : ascii) :
  is_ascii x = false -> Ascii.eqb (Text.lower_ascii c) x = Ascii.eqb c x.
Proof.
  intros Hx. destruct (is_ascii c) eqn:Hc.
  - assert (N1 : Text.lower_ascii c <> x)
      by (intros E; rewrite <- E, is_ascii_lower, Hc in Hx; discriminate Hx).
    assert (N2 : c <> x) by (intros E; rewrite E, Hx in Hc; discriminate Hc).
    apply Ascii.eqb_neq in N1, N2. now rewrite N1, N2.
  - now rewrite (lower_ascii_high c Hc).
Qed.

Lemma lower_ascii_idempotent (c : ascii) :
  Text.lower_ascii (Text.lower_ascii c) = Text.lower_ascii c.
Proof. destruct c as [[] [] [] [] [] [] [] []]; reflexivity. Qed.

Lemma is_ascii_not_cont (c : ascii) : is_ascii c = true -> Re.is_cont c = false.
Proof. destruct c as [[] [] [] [] [] [] [] []]; intros H; try reflexivity; discriminate H. Qed.

Lemma is_ascii_not_lead (c : ascii) : is_ascii c = true -> is_fold_lead c = false.
Proof. destruct c as [[] [] [] [] [] [] [] []]; intros H; try reflexivity; discriminate H. Qed.

(** Where two pieces of text meet, lower-casing [a ++ b] agrees with
    lower-casing [a] up to a code point left unfinished at the end of [a],
    and with lower-casing [b] from its first byte that starts a code
    point. *)
Lemma str_lower_seam (b : string) :
  forall (n : nat) (a : string), (String.length a <= n)%nat ->
    exists ta va m vb tb : string,
      Text.str_lower a = ta ++ va /\
      Text.str_lower b = vb ++ tb /\
      Text.str_lower (a ++ b) = ta ++ m ++ tb /\
      open_tail va /\ all_bytes Re.is_cont vb = true.
Proof.
  assert (B : exists ta va m vb tb : string,
             Text.str_lower "" = ta ++ va /\
             Text.str_lower b = vb ++ tb /\
             Text.str_lower ("" ++ b) = ta ++ m ++ tb /\
             open_tail va /\ all_bytes Re.is_cont vb = true).
  { exists "", "", "", "", (Text.str_lower b). repeat split; try reflexivity. now left. }
  induction n as [|n IH]; intros a Hn.
  - destruct a; [exact B | simpl in Hn; lia].
  - destruct a as [|c a]; [exact B|]. simpl in Hn.
    destruct (Ascii.eqb c "196" && Text.startswith (String "176" "") a) eqn:E1.
    { apply andb_true_iff in E1 as [Ec Ea]. apply Ascii.eqb_eq in Ec. subst c.
      apply startswith_inv in Ea as [a2 ->].
      change (String "196" (String "176" "" ++ a2) ++ b)
        with (String "196" (String "176" (a2 ++ b))).
      change (String "196" (String "176" "" ++ a2)) with (String "196" (String "176" a2)).
      rewrite !str_lower_dotted_I.
      destruct (IH a2) as (ta & va & m & vb & tb & H1 & H2 & H3 & H4 & H5);
        [simpl in Hn; lia|].
      exists (String "i" (String "204" (String "135" ta))), va, m, vb, tb.
      rewrite H1, H3. repeat split; auto. }
    destruct (Ascii.eqb c "226" && Text.startswith (String "132" (String "170" "")) a) eqn:E2.
    { apply andb_true_iff in E2 as [Ec Ea]. apply Ascii.eqb_eq in Ec. subst c.
      apply startswith_inv in Ea as [a3 ->].
      change (String "226" (String "132" (String "170" "") ++ a3) ++ b)
        with (String "226" (String "132" (String "170" (a3 ++ b)))).
      change (String "226" (String "132" (String "170" "") ++ a3))
        with (String "226" (String "132" (String "170" a3))).
      rewrite !str_lower_kelvin.
      destruct (IH a3) as (ta & va & m & vb & tb & H1 & H2 & H3 & H4 & H5);
        [simpl in Hn; lia|].
      exists (String "k" ta), va, m, vb, tb.
      rewrite H1, H3. repeat split; auto. }
    rewrite (str_lower_plain c a E1 E2).
    change (String c a ++ b) with (String c (a ++ b)).
    destruct (Ascii.eqb c "196" && Text.startswith (String "176" "") (a ++ b)) eqn:F1.
    { apply andb_true_iff in F1 as [Ec Fa]. rewrite Ec in E1.
      apply Ascii.eqb_eq in Ec. subst c.
      destruct a as [|x a]; [|cbn [append Text.startswith andb] in E1, Fa; congruence].
      apply startswith_inv in Fa as [b' Hb]. simpl in Hb. subst b.
      exists "", (String "196" ""), (String "i" (String "204" (String "135" ""))),
        (String "176" ""), (Text.str_lower b').
      split; [reflexivity|]. split; [apply str_lower_plain; reflexivity|].
      split; [reflexivity|]. split; [right; now left | reflexivity]. }
    destruct (Ascii.eqb c "226" && Text.startswith (String "132" (String "170" "")) (a ++ b))
      eqn:F2.
    { apply andb_true_iff in F2 as [Ec Fa]. rewrite Ec in E2.
      apply Ascii.eqb_eq in Ec. subst c.
      destruct a as [|x [|y a]].
      - apply startswith_inv in Fa as [b' Hb]. simpl in Hb. subst b.
        exists "", (String "226" ""), (String "k" ""),
          (String "132" (String "170" "")), (Text.str_lower b').
        split; [reflexivity|]. split.
        { rewrite str_lower_plain by reflexivity.
          rewrite (str_lower_plain "170") by reflexivity. reflexivity. }
        split; [reflexivity|]. split; [do 2 right; now left | reflexivity].
      - change (Ascii.eqb "132" x && Text.startswith (String "170" "") b = true) in Fa.
        apply andb_true_iff in Fa as [Ex Fb].
        apply Ascii.eqb_eq in Ex. subst x.
        apply startswith_inv in Fb as [b' Hb]. simpl in Hb. subst b.
        exists "", (String "226" (String "132" "")), (String "k" ""),
          (String "170" ""), (Text.str_lower b').
        split; [reflexivity|]. split; [apply str_lower_plain; reflexivity|].
        split; [reflexivity|]. split; [do 3 right; reflexivity | reflexivity].
      - cbn [append Text.startswith andb] in E2, Fa. congruence. }
    rewrite (str_lower_plain c (a ++ b) F1 F2).
    destruct (IH a) as (ta & va & m & vb & tb & H1 & H2 & H3 & H4 & H5); [lia|].
    exists (String (Text.lower_ascii c) ta), va, m, vb, tb.
    rewrite H1, H3. repeat split; auto.
Qed.

(** A searchable name is not found across the start of a code point that
    is left unfinished, nor from the middle of one. *)
Lemma startswith_before_tail (needle : string) :
  forall t v : string,
    all_bytes (fun c => negb (is_fold_lead c)) needle = true -> open_tail v ->
    Text.startswith needle (t ++ v) = true -> Text.startswith needle t = true.
Proof.
  induction needle as [|h needle IH]; intros t v Hn Hv H; [reflexivity|].
  simpl in Hn. apply andb_true_iff in Hn as [Hh Hn].
  destruct t as [|c t].
  - exfalso.
    destruct Hv as [-> | [-> | [-> | ->]]]; cbn [append Text.startswith] in H;
      try discriminate H;
      apply andb_true_iff in H as [H _]; apply Ascii.eqb_eq in H; subst h;
      discriminate Hh.
  - simpl in H |- *. apply andb_true_iff in H as [H1 H2].
    rewrite H1. exact (IH t v Hn Hv H2).
Qed.

Lemma contains_before_tail (needle t v : string) :
  searchable needle = true -> open_tail v ->
  Text.contains needle (t ++ v) = true -> Text.contains needle t = true.
Proof.
  unfold searchable. intros Hn Hv. apply andb_true_iff in Hn as [Hh Hn].
  destruct needle as [|h needle]; [discriminate Hh|].
  apply negb_true_iff in Hh.
  induction t as [|c t IH]; intros H.
  - exfalso. simpl in Hn. apply andb_true_iff in Hn as [Hl _].
    destruct Hv as [-> | [-> | [-> | ->]]];
      cbn [append Text.contains Text.startswith] in H;
      repeat match type of H with
        | (_ || _ = true) => apply orb_true_iff in H as [H | H]
        | (_ && _ = true) => apply andb_true_iff in H as [H _]
        end; try discriminate H; apply Ascii.eqb_eq in H; subst h;
      try discriminate Hl; discriminate Hh.
  - change (String c t ++ v) with (String c (t ++ v)) in H.
    cbn [Text.contains] in H |- *. apply orb_true_iff in H as [H | H].
    + change (String c (t ++ v)) with (String c t ++ v) in H.
      rewrite (startswith_before_tail _ _ _ Hn Hv H). reflexivity.
    + rewrite (IH H). apply orb_true_r.
Qed.

Lemma contains_after_cont (needle v t : string) :
  searchable needle = true -> all_bytes Re.is_cont v = true ->
  Text.contains needle (v ++ t) = true -> Text.contains needle t = true.
Proof.
  unfold searchable. intros Hn. apply andb_true_iff in Hn as [Hh _].
  destruct needle as [|h needle]; [discriminate Hh|].
  apply negb_true_iff in Hh.
  induction v as [|c v IH]; intros Hv H; [exact H|].
  simpl in Hv. apply andb_true_iff in Hv as [Hc Hv].
  change (String c v ++ t) with (String c (v ++ t)) in H.
  cbn [Text.contains Text.startswith] in H. apply orb_true_iff in H as [H | H].
  - apply andb_true_iff in H as [H _]. apply Ascii.eqb_eq in H. subst c. congruence.
  - exact (IH Hv H).
Qed.

Lemma contains_append_l (needle pre s : string) :
  Text.contains needle s = true -> Text.contains needle (pre ++ s) = true.
Proof.
  intros H. induction pre as [|c pre IH]; [exact H|].
  simpl. rewrite IH. apply orb_true_r.
Qed.

Lemma contains_append_r (needle s post : string) :
  Text.contains needle s = true -> Text.contains needle (s ++ post) = true.
Proof.
  intros H. apply contains_inv in H as (p & q & ->).
  rewrite !append_assoc. apply contains_intro.
Qed.

(** What is found in the lower case of a text is found in the lower case
    of every text that holds it. *)
Lemma contains_str_lower_mono (needle pre content post : string) :
  searchable needle = true ->
  Text.contains needle (Text.str_lower content) = true ->
  Text.contains needle (Text.str_lower (pre ++ content ++ post)) = true.
Proof.
  intros Hn H.
  destruct (str_lower_seam post _ content (le_n _))
    as (ta & va & m & vb & tb & H1 & _ & H3 & Hv & _).
  rewrite H1 in H. apply (contains_before_tail _ _ _ Hn Hv) in H.
  assert (G : Text.contains needle (Text.str_lower (content ++ post)) = true)
    by (rewrite H3; now apply contains_append_r).
  destruct (str_lower_seam (content ++ post) _ pre (le_n _))
    as (ta' & va' & m' & vb' & tb' & _ & H2' & H3' & _ & Hv').
  rewrite H2' in G. apply (contains_after_cont _ _ _ Hn Hv') in G.
  rewrite H3', <- append_assoc. now apply contains_append_l.
Qed.

(** ASCII text is lower-cased byte by byte, whatever follows. *)
Lemma str_lower_ascii (mid post : string) :
  all_bytes is_ascii mid = true ->
  Text.str_lower (mid ++ post) = Text.lower mid ++ Text.str_lower post.
Proof.
  induction mid as [|c mid IH]; intros H; [reflexivity|].
  simpl in H. apply andb_true_iff in H as [Hc H].
  apply is_ascii_not_lead in Hc. unfold is_fold_lead in Hc.
  apply orb_false_iff in Hc as [C1 C2].
  change (String c mid ++ post) with (String c (mid ++ post)).
  rewrite str_lower_plain by (rewrite ?C1, ?C2; reflexivity).
  rewrite (IH H). reflexivity.
Qed.

Lemma all_ascii_lower (s : string) :
  all_bytes is_ascii (Text.lower s) = all_bytes is_ascii s.
Proof.
  induction s as [|c s IH]; [reflexivity|].
  simpl. now rewrite is_ascii_lower, IH.
Qed.

(** An ASCII name is found in the lower case of every text that holds it
    in some letter case. *)
Lemma contains_str_lower_intro (needle pre mid post : string) :
  searchable needle = true -> all_bytes is_ascii needle = true ->
  Text.lower mid = needle ->
  Text.contains needle (Text.str_lower (pre ++ mid ++ post)) = true.
Proof.
  intros Hn Ha Hm.
  replace (pre ++ mid ++ post) with (pre ++ (mid ++ post) ++ "")
    by now rewrite append_nil_r.
  apply (contains_str_lower_mono needle pre (mid ++ post) ""); [exact Hn|].
  rewrite <- Hm, all_ascii_lower in Ha.
  rewrite (str_lower_ascii mid post Ha), Hm.
  apply (contains_intro needle "" _).
Qed.

(** Lower-casing the ASCII letters first changes nothing. *)
Lemma startswith_lower_high (p s : string) :
  all_bytes (fun c => negb (is_ascii c)) p = true ->
  Text.startswith p (Text.lower s) = Text.startswith p s.
Proof.
  revert s. induction p as [|x p IH]; intros s H; [reflexivity|].
  simpl in H. apply andb_true_iff in H as [Hx H]. apply negb_true_iff in Hx.
  destruct s as [|c s]; [reflexivity|].
  simpl. rewrite (IH s H), (Ascii.eqb_sym x), (eqb_lower_ascii c x Hx), (Ascii.eqb_sym c).
  reflexivity.
Qed.

Lemma str_lower_lower (s : string) : Text.str_lower (Text.lower s) = Text.str_lower s.
Proof.
  assert (G : forall (n : nat) (s : string), (String.length s <= n)%nat ->
                Text.str_lower (Text.lower s) = Text.str_lower s);
    [|exact (G _ s (le_n _))].
  clear s. induction n as [|n IH]; intros s Hn.
  - destruct s; [reflexivity | simpl in Hn; lia].
  - destruct s as [|c s]; [reflexivity|]. simpl in Hn.
    destruct (Ascii.eqb c "196" && Text.startswith (String "176" "") s) eqn:E1.
    { apply andb_true_iff in E1 as [Ec Es]. apply Ascii.eqb_eq in Ec. subst c.
      apply startswith_inv in Es as [r ->].
      change (Text.lower (String "196" (String "176" "" ++ r)))
        with (String "196" (String "176" (Text.lower r))).
      change (String "196" (String "176" "" ++ r)) with (String "196" (String "176" r)).
      rewrite !str_lower_dotted_I, IH; [reflexivity | simpl in Hn; lia]. }
    destruct (Ascii.eqb c "226" && Text.startswith (String "132" (String "170" "")) s) eqn:E2.
    { apply andb_true_iff in E2 as [Ec Es]. apply Ascii.eqb_eq in Ec. subst c.
      apply startswith_inv in Es as [r ->].
      change (Text.lower (String "226" (String "132" (String "170" "") ++ r)))
        with (String "226" (String "132" (String "170" (Text.lower r)))).
      change (String "226" (String "132" (String "170" "") ++ r))
        with (String "226" (String "132" (String "170" r))).
      rewrite !str_lower_kelvin, IH; [reflexivity | simpl in Hn; lia]. }
    rewrite (str_lower_plain c s E1 E2).
    cbn [Text.lower]. rewrite str_lower_plain.
    + rewrite lower_ascii_idempotent, IH; [reflexivity | lia].
    + rewrite eqb_lower_ascii, startswith_lower_high by reflexivity. exact E1.
    + rewrite eqb_lower_ascii, startswith_lower_high by reflexivity. exact E2.
Qed.

End LowerCaseFacts.

(** ** LanguageContentDetector *)

Section LanguageFacts.

Local Open Scope string_scope.

(** A language is in the result of the loop when it was in the set the loop
    started from or one of its indicators occurs in the content. *)
Lemma detect_loop_iff (content_lower : string) (catalog : list (string * list string)) :
  forall (acc : str_set) (lang : string),
    In lang (detect_loop content_lower catalog acc) <->
    In lang acc \/
    exists indicators,
      In (lang, indicators) catalog /\
      existsb (fun indicator => Text.contains indicator content_lower) indicators = true.
Proof.
  induction catalog as [|[l inds] catalog IH]; intros acc lang; simpl.
  - split; [now left | intros [H | (i & [] & _)]; exact H].
  - rewrite IH. split.
    + intros [H | (i & Hin & Hex)].
      * destruct (existsb _ inds) eqn:E.
        -- apply set_add_iff in H as [-> | H]; [right | now left].
           exists inds. split; [now left | exact E].
        -- now left.
      * right. exists i. split; [now right | exact Hex].
    + intros [H | (i & [Heq | Hin] & Hex)].
      * left. destruct (existsb _ inds); [apply set_add_iff; now right | exact H].
      * injection Heq as -> ->. left. rewrite Hex. apply set_add_iff. now left.
      * right. exists i. now split.
Qed.

Lemma detect_loop_nodup (content_lower : string) (catalog : list (string * list string)) :
  forall acc : str_set, NoDup acc -> NoDup (detect_loop content_lower catalog acc).
Proof.
  induction catalog as [|[l inds] catalog IH]; intros acc H; simpl; [exact H|].
  apply IH. destruct (existsb _ inds); [now apply set_add_nodup | exact H].
Qed.

Lemma detect_languages_nodup (content : string) :
  NoDup (detect_languages_in_content content).
Proof. unfold detect_languages_in_content. apply detect_loop_nodup. constructor. Qed.

(** Every indicator of the catalogue is already in lower case, starts a
    code point and holds no first byte of U+0130 or U+212A. *)
Lemma indicators_lower (lang indicator : string) (indicators : list string) :
  In (lang, indicators) language_indicators -> In indicator indicators ->
  Text.str_lower indicator = indicator /\ searchable indicator = true.
Proof.
  assert (H : forallb (fun e =>
                forallb (fun i => String.eqb (Text.str_lower i) i && searchable i) (snd e))
                      language_indicators = true) by (vm_compute; reflexivity).
  intros Hl Hi. rewrite forallb_forall in H. specialize (H _ Hl). simpl in H.
  rewrite forallb_forall in H. specialize (H _ Hi).
  apply andb_true_iff in H as [H1 H2]. split; [apply String.eqb_eq, H1 | exact H2].
Qed.

(** The first indicator of every language is made of ASCII letters. *)
Lemma codes_ascii (lang code : string) (rest : list string) :
  In (lang, code :: rest) language_indicators -> all_bytes is_ascii code = true.
Proof.
  assert (H : forallb (fun e => all_bytes is_ascii (hd "" (snd e)))
                      language_indicators = true) by (vm_compute; reflexivity).
  intros Hl. rewrite forallb_forall in H. exact (H _ Hl).
Qed.

Lemma detect_languages_iff (content lang : string) :
  In lang (detect_languages_in_content content) <->
  exists indicators indicator,
    In (lang, indicators) language_indicators /\ In indicator indicators /\
    Text.contains (Text.str_lower indicator) (Text.str_lower content) = true.
Proof.
  unfold detect_languages_in_content. rewrite detect_loop_iff. split.
  - intros [[] | (inds & Hin & Hex)].
    apply existsb_exists in Hex as (i & Hi & Hc).
    exists inds, i. rewrite (proj1 (indicators_lower _ _ _ Hin Hi)). auto.
  - intros (inds & i & Hin & Hi & Hc). right. exists inds. split; [exact Hin|].
    apply existsb_exists. exists i.
    rewrite (proj1 (indicators_lower _ _ _ Hin Hi)) in Hc. auto.
Qed.

End LanguageFacts.

(** C3, as the catalogue stands: the catalogue has seventeen entries
    (English and sixteen Indic languages); for arbitrary text the detected
    set is a duplicate-free subset of its keys, and a language is detected
    exactly when one of its indicators, in lower case, is a substring of the
    content in lower case, the lower case being that of [str.lower]: of the
    letters [A]..[Z] and of U+0130 and U+212A, which become [i] with a
    combining dot and [k]. *)
Theorem detected_languages_in_catalog :
  List.length language_indicators = 17%nat /\
  map fst language_indicators =
    [ "english"; "hindi"; "bengali"; "tamil"; "telugu"; "marathi"; "gujarati";
      "kannada"; "malayalam"; "punjabi"; "oriya"; "assamese"; "urdu"; "sanskrit";
      "kashmiri"; "nepali"; "sinhala" ] /\
  forall content : string,
    incl (detect_languages_in_content content) (map fst language_indicators) /\
    NoDup (detect_languages_in_content content) /\
    forall lang : string,
      In lang (detect_languages_in_content content) <->
      exists indicators indicator,
        In (lang, indicators) language_indicators /\ In indicator indicators /\
        Text.contains (Text.str_lower indicator) (Text.str_lower content) = true.
Proof.
  split; [reflexivity|]. split; [reflexivity|].
  intros content. split; [|split].
  - intros lang H.
    destruct (proj1 (detect_languages_iff content lang) H) as (inds & i & Hin & _).
    exact (in_map fst _ _ Hin).
  - apply detect_languages_nodup.
  - intros lang. apply detect_languages_iff.
Qed.

(** C3 as stated speaks of an 18-entry catalogue: the catalogue of the
    detector does not have eighteen entries. *)
Lemma language_catalog_not_18_entries :
  List.length language_indicators <> 18%nat.
Proof. vm_compute. discriminate. Qed.

(** C10: text that holds [hi] in any letter case, anywhere, is reported as
    Hindi, the English word [this] included; and so for the first
    indicator, the two-letter code, of every language of the catalogue. *)
Theorem iso_code_fires_on_any_substring :
  (forall pre mid post : string,
      Text.lower mid = "hi" ->
      In "hindi" (detect_languages_in_content (pre ++ mid ++ post))) /\
  detect_languages_in_content "this" = ["hindi"] /\
  Forall (fun e => String.length (hd "" (snd e)) = 2%nat) language_indicators /\
  (forall (lang code : string) (rest : list string) (pre mid post : string),
      In (lang, code :: rest) language_indicators ->
      Text.lower mid = code ->
      In lang (detect_languages_in_content (pre ++ mid ++ post))).
Proof.
  assert (G : forall (lang code : string) (rest : list string) (pre mid post : string),
             In (lang, code :: rest) language_indicators ->
             Text.lower mid = code ->
             In lang (detect_languages_in_content (pre ++ mid ++ post))).
  { intros lang code rest pre mid post Hin Hm.
    apply detect_languages_iff. exists (code :: rest), code.
    split; [exact Hin|]. split; [now left|].
    destruct (indicators_lower _ code _ Hin (or_introl eq_refl)) as [Hl Hs].
    rewrite Hl.
    exact (contains_str_lower_intro code pre mid post Hs (codes_ascii _ _ _ Hin) Hm). }
  split; [|split; [|split]].
  - intros pre mid post Hm. eapply G; [|exact Hm].
    right. left. reflexivity.
  - vm_compute. reflexivity.
  - repeat constructor.
  - exact G.
Qed.

Lemma iso_code_fires_on_any_substring_witness :
  Text.lower "Hi" = "hi" /\
  In "hindi" (detect_languages_in_content ("W" ++ "Hi" ++ "te")) /\
  In ("tamil", ["ta"; "தமிழ்"; "வணக்கம்"; "நன்றி"; "தயவுசெய்து"; "வரவேற்கிறோம்"])
     language_indicators /\
  In "tamil" (detect_languages_in_content ("da" ++ "TA" ++ "base")).
Proof.
  split; [reflexivity|]. split.
  - apply (proj1 iso_code_fires_on_any_substring). reflexivity.
  - split; [do 3 right; left; reflexivity|].
    apply (proj2 (proj2 (proj2 iso_code_fires_on_any_substring)) "tamil" "ta"
             ["தமிழ்"; "வணக்கம்"; "நன்றி"; "தயவுசெய்து"; "வரவேற்கிறோம்"]).
    + do 3 right. left. reflexivity.
    + reflexivity.
Defined.

(** ** ScoringEngine *)

Section ScoringFacts.

Lemma truthy_dict_set {V : Type} (k : string) (v : V) (d : dict V) :
  truthy (dict_set k v d) = true.
Proof. destruct d as [|[k' v'] d]; simpl; [|destruct (String.eqb k k')]; reflexivity. Qed.

Lemma truthy_false {A : Type} (l : list A) : truthy l = false <-> l = [].
Proof. destruct l; simpl; split; congruence. Qed.

(** The aggregate of pattern matches is non-empty exactly when it was so
    before the loop or some candidate has a pattern category. *)
Lemma fold_candidates_patterns (files : list source_file) :
  forall acc,
    truthy (fst (fold_left analyze_candidate files acc)) =
    truthy (fst acc) || existsb (fun f => truthy (analyze_i18n_patterns f)) files.
Proof.
  induction files as [|f files IH]; intros [ap al]; cbn [fold_left existsb fst].
  - now rewrite orb_false_r.
  - rewrite IH. unfold analyze_candidate.
    destruct (truthy (analyze_i18n_patterns f)) eqn:E;
      destruct (read_ignore (file_data f)); cbn [fst];
      rewrite ?truthy_dict_set, ?orb_true_r, ?orb_false_l; try reflexivity.
    all: destruct (truthy ap); reflexivity.
Qed.

Lemma fold_candidates_nodup (files : list source_file) :
  forall acc, NoDup (snd acc) -> NoDup (snd (fold_left analyze_candidate files acc)).
Proof.
  induction files as [|f files IH]; intros [ap al] H; cbn [fold_left]; [exact H|].
  apply IH. unfold analyze_candidate.
  destruct (read_ignore (file_data f)); cbn [snd] in *; [|exact H].
  apply set_union_nodup; [exact H | apply detect_languages_nodup].
Qed.

(** Rewriting the paths of the buckets as strings keeps the emptiness of
    every bucket. *)
Lemma any_values_path_str (d : dict (list path)) :
  any_values (map (fun '(k, v) => (k, map path_str v)) d) = any_values d.
Proof.
  unfold any_values, dict_values.
  induction d as [|[k v] d IH]; simpl; [reflexivity|].
  rewrite IH. destruct v; reflexivity.
Qed.

End ScoringFacts.

(** C1: the confidence score is the sum, clamped to [0,100], of 40 when
    some candidate file has a pattern category, 30 when some translation
    bucket is non-empty, 20 when some i18n package was found and 10 when
    more than one language key was detected; it is one of 0, 10, ..., 100;
    and the repository is classified multilingual exactly when the score is
    at least 30. *)
Theorem confidence_score_clamped_sum (directory : list entry) :
  let r := generate_multilingual_report directory in
  let from_patterns :=
    if existsb (fun f => truthy (analyze_i18n_patterns f)) (find_streamlit_files directory)
    then 40%Z else 0%Z in
  let from_translations := if any_values (translation_files r) then 30%Z else 0%Z in
  let from_packages :=
    if truthy (found_packages (requirements_analysis r)) then 20%Z else 0%Z in
  let from_languages :=
    if (1 <? List.length (detected_languages r))%nat then 10%Z else 0%Z in
  confidence_score r =
    Z.max 0 (Z.min 100 (from_patterns + from_translations + from_packages + from_languages)) /\
  truthy (i18n_patterns r) =
    existsb (fun f => truthy (analyze_i18n_patterns f)) (find_streamlit_files directory) /\
  NoDup (detected_languages r) /\
  In (confidence_score r) [0; 10; 20; 30; 40; 50; 60; 70; 80; 90; 100]%Z /\
  (is_multilingual r = true <-> (30 <= confidence_score r)%Z).
Proof.
  unfold generate_multilingual_report.
  pose proof (fold_candidates_patterns (find_streamlit_files directory) ([], empty_set string)) as HP.
  pose proof (fold_candidates_nodup (find_streamlit_files directory) ([], empty_set string)) as HN.
  destruct (fold_left analyze_candidate (find_streamlit_files directory) ([], empty_set string))
    as [all_patterns all_languages].
  simpl in HP, HN. cbv zeta. simpl.
  rewrite any_values_path_str. rewrite <- HP. unfold raw_score.
  split; [|split; [reflexivity|split; [apply HN; constructor|]]].
  - destruct (truthy all_patterns), (any_values (find_translation_files directory)),
      (truthy (found_packages (analyze_requirements_file directory))),
      (1 <? List.length all_languages)%nat; reflexivity.
  - destruct (truthy all_patterns), (any_values (find_translation_files directory)),
      (truthy (found_packages (analyze_requirements_file directory))),
      (1 <? List.length all_languages)%nat; simpl;
      (split; [tauto | rewrite Z.leb_le; simpl; lia]).
Qed.

(** C2 as stated fails: a repository whose only file is a [.po] file has
    no candidate file, yet scores 30 and is classified multilingual. *)
Lemma no_candidate_yet_multilingual :
  let r := generate_multilingual_report [File "messages.po" (Utf8 "")] in
  find_streamlit_files [File "messages.po" (Utf8 "")] = [] /\
  streamlit_files r = [] /\
  confidence_score r = 30%Z /\
  is_multilingual r = true.
Proof. vm_compute. repeat split; reflexivity. Qed.

(** C2, amended: when file discovery finds no candidate file, the report
    lists no candidate, no pattern match and no language; the score is 30
    for a non-empty translation bucket plus 20 for a found i18n package, and
    the classification is whether a translation bucket is non-empty; so with
    no translation file and no i18n package the score is 0 and the
    repository is not multilingual. *)
Theorem no_candidate_report (directory : list entry) :
  find_streamlit_files directory = [] ->
  let r := generate_multilingual_report directory in
  streamlit_files r = [] /\
  i18n_patterns r = [] /\
  detected_languages r = [] /\
  confidence_score r =
    ((if any_values (translation_files r) then 30 else 0) +
     (if truthy (found_packages (requirements_analysis r)) then 20 else 0))%Z /\
  is_multilingual r = any_values (translation_files r) /\
  (any_values (translation_files r) = false ->
   found_packages (requirements_analysis r) = [] ->
   confidence_score r = 0%Z /\ is_multilingual r = false).
Proof.
  intros H. unfold generate_multilingual_report. rewrite H. simpl.
  rewrite any_values_path_str. unfold raw_score. simpl.
  split; [reflexivity|]. split; [reflexivity|]. split; [reflexivity|].
  split; [|split].
  - destruct (any_values _), (truthy _); reflexivity.
  - destruct (any_values _), (truthy _); reflexivity.
  - intros Hnone Hpackages. rewrite Hnone, Hpackages. split; reflexivity.
Qed.

Lemma no_candidate_report_witness :
  let directory := [File "README.md" (Utf8 "hello"); Dir "docs" [File "notes.txt" Unreadable]] in
  find_streamlit_files directory = [] /\
  confidence_score (generate_multilingual_report directory) = 0%Z /\
  is_multilingual (generate_multilingual_report directory) = false.
Proof.
  pose (directory := [File "README.md" (Utf8 "hello"); Dir "docs" [File "notes.txt" Unreadable]]).
  assert (H : find_streamlit_files directory = []) by reflexivity.
  split; [exact H|].
  apply (no_candidate_report directory H); reflexivity.
Defined.

(** C8: the recommendations branch on the classification.  Not
    multilingual: exactly the four standard suggestions.  Multilingual: the
    dependency suggestion exactly when no i18n package was found, the
    translation-format suggestion exactly when every translation bucket is
    empty, and the two fixed suggestions, in this order. *)
Theorem recommendations_follow_classification (directory : list entry) :
  let r := generate_multilingual_report directory in
  (is_multilingual r = false /\
   recommendations r =
     [ rec_adopt_library; rec_language_widget; rec_create_translations; rec_unicode_fonts ])
  \/
  (is_multilingual r = true /\
   (In rec_document_dependencies (recommendations r) <->
    found_packages (requirements_analysis r) = []) /\
   (In rec_standard_formats (recommendations r) <->
    any_values (translation_files r) = false) /\
   In rec_unicode_support (recommendations r) /\
   In rec_test_inputs (recommendations r) /\
   recommendations r =
     (if truthy (found_packages (requirements_analysis r))
      then [] else [rec_document_dependencies])
     ++ (if any_values (translation_files r) then [] else [rec_standard_formats])
     ++ [ rec_unicode_support; rec_test_inputs ]).
Proof.
  unfold generate_multilingual_report.
  destruct (fold_left analyze_candidate (find_streamlit_files directory) ([], empty_set string))
    as [all_patterns all_languages].
  cbv zeta. simpl. rewrite any_values_path_str.
  unfold make_recommendations.
  destruct (30 <=? raw_score _ _ _ _)%Z; simpl; [right | left; split; reflexivity].
  split; [reflexivity|].
  destruct (found_packages (analyze_requirements_file directory)) as [|p ps];
    destruct (any_values (find_translation_files directory)); simpl;
    repeat split; try tauto; try discriminate; intros;
    repeat match goal with
           | H : _ \/ _ |- _ => destruct H
           | H : False |- _ => destruct H
           | H : _ = _ |- _ => discriminate H
           end.
Qed.

(** ** TranslationFileIndex *)

Section TranslationFacts.








Lemma dict_get_append {V : Type} (key k : string) (x : V) (d : dict (list V)) :
  dict_get key (dict_append k x d) =
  if String.eqb key k then option_map (fun l => l ++ [x]) (dict_get key d)
  else dict_get key d.
Proof.
  induction d as [|[k' xs] d IH]; simpl.
  - destruct (String.eqb key k); reflexivity.
  - destruct (String.eqb k k') eqn:E; simpl.
    + apply String.eqb_eq in E. subst k'.
      destruct (String.eqb key k); reflexivity.
    + destruct (String.eqb key k') eqn:E'; simpl.
      * apply String.eqb_eq in E'. subst k'.
        rewrite String.eqb_sym, E. reflexivity.
      * exact IH.
Qed.


Lemma fold_classify_get (key : string) (root : path) (files : list (string * payload)) :
  forall d,
    dict_get key (fold_left (classify_file root) files d) =
    option_map (fun l => l ++ flat_map (select_file key root) files) (dict_get key d).
Proof.
  induction files as [|file files IH]; intros d; simpl.
  - destruct (dict_get key d); simpl; [now rewrite app_nil_r | reflexivity].
  - rewrite IH. unfold classify_file, select_file at 2, in_bucket.
    destruct (translation_bucket (fst file)) as [k|]; [|reflexivity].
    rewrite dict_get_append.
    destruct (String.eqb key k); [|reflexivity].
    destruct (dict_get key d); simpl; [now rewrite <- app_assoc | reflexivity].
Qed.


Lemma fold_walk_get (key : string) (dirs : list (path * list (string * payload))) :
  forall d,
    dict_get key
      (fold_left (fun tf '(root, files) => fold_left (classify_file root) files tf) dirs d) =
    option_map
      (fun l => l ++ flat_map (fun '(root, files) => flat_map (select_file key root) files) dirs)
      (dict_get key d).
Proof.
  induction dirs as [|[root files] dirs IH]; intros d; simpl.
  - destruct (dict_get key d); simpl; [now rewrite app_nil_r | reflexivity].
  - rewrite IH, fold_classify_get.
    destruct (dict_get key d); simpl; [now rewrite <- app_assoc | reflexivity].
Qed.


Lemma find_translation_files_get (key : string) (directory : list entry) :
  dict_get key (find_translation_files directory) =
  option_map (fun _ => bucket_members key directory) (dict_get key empty_translation_files).
Proof.
  unfold find_translation_files. rewrite fold_walk_get.
  destruct (dict_get key empty_translation_files) as [l|] eqn:E; [|reflexivity].
  simpl. f_equal.
  assert (l = []) as ->.
  { unfold empty_translation_files in E. simpl in E.
    repeat match type of E with
           | (if ?c then _ else _) = _ => destruct c; [congruence|]
           end. discriminate. }
  reflexivity.
Qed.

End TranslationFacts.


(** ** DependencyInspector *)

Section DependencyFacts.

Lemma fold_inspect_manifest (directory : list entry) (names : list string) :
  forall acc,
    fold_left (inspect_manifest directory) names acc =
    {| requirements_files :=
         requirements_files acc ++ filter (manifest_exists directory) names;
       found_packages :=
         found_packages acc ++ flat_map (manifest_packages directory) names |}.
Proof.
  induction names as [|m names IH]; intros [rf fp]; simpl.
  - now rewrite !app_nil_r.
  - rewrite IH. unfold inspect_manifest, manifest_exists, manifest_packages.
    destruct (lookup_entry m directory) as [e|]; simpl; [|reflexivity].
    destruct (read_manifest e); simpl; now rewrite <- ?app_assoc.
Qed.




Lemma i18n_packages_nodup : NoDup i18n_packages.
Proof.
  unfold i18n_packages.
  repeat (constructor; [simpl; intuition discriminate|]). constructor.
Qed.

Lemma packages_in_nodup (content : string) : NoDup (packages_in content).
Proof. apply NoDup_filter, i18n_packages_nodup. Qed.

Lemma manifest_packages_nodup (directory : list entry) (req_file : string) :
  NoDup (manifest_packages directory req_file).
Proof.
  unfold manifest_packages.
  destruct (lookup_entry req_file directory) as [e|]; [|constructor].
  destruct (read_manifest e); [apply packages_in_nodup | constructor].
Qed.

(** In a duplicate-free list an element occurs once or not at all. *)
Lemma count_occ_nodup (x : string) (l : list string) :
  NoDup l ->
  count_occ string_dec l x = if existsb (String.eqb x) l then 1%nat else 0%nat.
Proof.
  induction 1 as [|y l Hy Hl IH]; simpl; [reflexivity|].
  destruct (string_dec y x) as [-> | Hne].
  - rewrite String.eqb_refl. simpl.
    apply (count_occ_not_In string_dec) in Hy. now rewrite Hy.
  - rewrite IH. apply not_eq_sym, String.eqb_neq in Hne. now rewrite Hne.
Qed.

(** Over lists that are each duplicate-free, an element occurs as many
    times in their concatenation as there are lists holding it. *)
Lemma count_occ_flat_map (x : string) (f : string -> list string) (names : list string) :
  (forall name, NoDup (f name)) ->
  count_occ string_dec (flat_map f names) x =
  List.length (filter (fun name => existsb (String.eqb x) (f name)) names).
Proof.
  intros Hf. induction names as [|m names IH]; simpl; [reflexivity|].
  rewrite count_occ_app, IH, (count_occ_nodup x (f m) (Hf m)).
  destruct (existsb (String.eqb x) (f m)); reflexivity.
Qed.

End DependencyFacts.


(** ** RepositoryFetcher *)

Section FetcherFacts.

Variable w : world.

(** The loop over the candidates requests them in order up to the first
    that succeeds, and returns [True] exactly when one did. *)
Lemma try_archives_trace (urls : list string) :
  try_archives w urls =
  (map HttpGet (until_success (archive_succeeds w) urls),
   Ok (if existsb (archive_succeeds w) urls then Some true else None)).
Proof.
  induction urls as [|u urls IH]; [reflexivity|].
  simpl. unfold archive_succeeds at 1 3, call, try_except, bind, ret. simpl.
  destruct (requests_get w u) as [[status body]|e]; simpl.
  - destruct (status =? 200)%Z; simpl.
    + destruct (unpack w body) as [[]|e]; simpl; [reflexivity|].
      rewrite IH. reflexivity.
    + rewrite IH. reflexivity.
  - rewrite IH. reflexivity.
Qed.

Lemma existsb_until_success (ok : string -> bool) (urls : list string) :
  existsb ok (until_success ok urls) = existsb ok urls.
Proof.
  induction urls as [|u urls IH]; simpl; [reflexivity|].
  destruct (ok u); simpl; [reflexivity | exact IH].
Qed.

Lemma until_success_prefix (ok : string -> bool) (urls : list string) :
  exists n, until_success ok urls = firstn n urls.
Proof.
  induction urls as [|u urls [n IH]]; [now exists 0%nat|].
  simpl. destruct (ok u).
  - now exists 1%nat.
  - exists (S n). simpl. now rewrite IH.
Qed.

(** Nothing is tried after a candidate that succeeds. *)
Lemma until_success_stops (ok : string -> bool) (urls l1 l2 : list string) (u : string) :
  until_success ok urls = l1 ++ u :: l2 -> ok u = true -> l2 = [].
Proof.
  revert l1. induction urls as [|v urls IH]; intros l1 H Hu; simpl in H.
  - destruct l1; discriminate.
  - destruct l1 as [|x l1]; simpl in H; injection H as -> H.
    + rewrite Hu in H. now subst l2.
    + destruct (ok x); [destruct l1; discriminate|]. eapply IH; eassumption.
Qed.

(** Every candidate tried before the last one failed. *)
Lemma until_success_failed_before (ok : string -> bool) (urls l1 l2 : list string) (u : string) :
  until_success ok urls = l1 ++ u :: l2 -> Forall (fun v => ok v = false) l1.
Proof.
  revert l1. induction urls as [|v urls IH]; intros l1 H; simpl in H.
  - destruct l1; discriminate.
  - destruct l1 as [|x l1]; [constructor|]. simpl in H. injection H as -> H.
    destruct (ok x) eqn:E; [destruct l1; discriminate|].
    constructor; [exact E | eapply IH; eassumption].
Qed.

(** The whole fetch: the clone first; the archive candidates only after a
    clone that did not succeed, for a URL that passes the guard. *)
Lemma clone_gitlab_repo_trace (repo_url : string) :
  let git_url := git_url_of repo_url in
  let archives :=
    if archive_applies repo_url
    then until_success (archive_succeeds w) (possible_urls repo_url) else [] in
  let fallback : M bool :=
    (GitClone git_url :: map HttpGet archives, Ok (existsb (archive_succeeds w) archives)) in
  clone_gitlab_repo w repo_url =
  match run_git_clone w git_url with
  | Ok returncode =>
      if (returncode =? 0)%Z then ([GitClone git_url], Ok true) else fallback
  | Raise e =>
      if clone_errors e then fallback else ([GitClone git_url; StError], Ok false)
  end.
Proof.
  cbv zeta. unfold clone_gitlab_repo, clone_body, git_url_of, archive_applies.
  rewrite try_archives_trace.
  generalize (existsb_until_success (archive_succeeds w) (possible_urls repo_url)).
  generalize (until_success (archive_succeeds w) (possible_urls repo_url)) as tried.
  generalize (existsb (archive_succeeds w) (possible_urls repo_url)) as found.
  generalize (archive_guard repo_url) as guard.
  generalize (2 <=? List.length (Text.split_slash (Text.rstrip_slash repo_url)))%nat as long.
  generalize (if negb (Text.endswith ".git" repo_url)
              then (repo_url ++ ".git")%string else repo_url) as git_url.
  intros git_url long guard found tried Hfound.
  unfold call, try_except, bind, ret.
  destruct (run_git_clone w git_url) as [rc|e];
    [destruct (rc =? 0)%Z | destruct (clone_errors e)];
    destruct guard, long, found; simpl in *;
    rewrite ?app_nil_r, ?Hfound; reflexivity.
Qed.

End FetcherFacts.

(** C4, as the fetcher does it: the clone is attempted first, on the URL
    with its [.git] suffix; archive candidates are requested only after a
    clone that did not succeed (non-zero exit, or a time-out or OS error),
    and only for a URL that passes the guard; they are requested in the
    declared order, as a prefix of the four declared candidates, every
    candidate before the last one having failed; and nothing is requested
    after the first candidate whose HTTP 200 answer is also stored and
    extracted without error. *)
Theorem fetch_strategies_in_order (w : world) (repo_url : string) :
  let git_url := git_url_of repo_url in
  let archives :=
    if archive_applies repo_url
    then until_success (archive_succeeds w) (possible_urls repo_url) else [] in
  let fallback : M bool :=
    (GitClone git_url :: map HttpGet archives, Ok (existsb (archive_succeeds w) archives)) in
  clone_gitlab_repo w repo_url =
    match run_git_clone w git_url with
    | Ok returncode =>
        if (returncode =? 0)%Z then ([GitClone git_url], Ok true) else fallback
    | Raise e =>
        if clone_errors e then fallback else ([GitClone git_url; StError], Ok false)
    end /\
  List.length (possible_urls repo_url) = 4%nat /\
  (exists n, archives = firstn n (possible_urls repo_url)) /\
  (forall (l1 : list string) (u : string) (l2 : list string),
      archives = l1 ++ u :: l2 ->
      Forall (fun v => archive_succeeds w v = false) l1 /\
      (archive_succeeds w u = true -> l2 = [])).
Proof.
  cbv zeta. split; [apply clone_gitlab_repo_trace|]. split; [reflexivity|].
  destruct (archive_applies repo_url).
  - split; [apply until_success_prefix|].
    intros l1 u l2 H. split.
    + eapply until_success_failed_before; eassumption.
    + intros Hu. eapply until_success_stops; eassumption.
  - split; [now exists 0%nat|].
    intros l1 u l2 H. destruct l1; discriminate.
Qed.

Lemma fetch_strategies_in_order_witness :
  clone_gitlab_repo world_master_archive "https://gitlab.com/group/project" =
    ([ GitClone "https://gitlab.com/group/project.git";
       HttpGet "https://gitlab.com/group/project/-/archive/main/project-main.zip";
       HttpGet "https://gitlab.com/group/project/-/archive/master/project-master.zip" ],
     Ok true) /\
  Forall (fun v => archive_succeeds world_master_archive v = false)
         ["https://gitlab.com/group/project/-/archive/main/project-main.zip"].
Proof.
  pose proof (fetch_strategies_in_order world_master_archive
                "https://gitlab.com/group/project") as H.
  cbv zeta in H. destruct H as (Htrace & _ & _ & Hstop).
  split.
  - rewrite Htrace. reflexivity.
  - apply (Hstop ["https://gitlab.com/group/project/-/archive/main/project-main.zip"]
                 "https://gitlab.com/group/project/-/archive/master/project-master.zip"
                 []).
    reflexivity.
Defined.

(** C4 as stated fails: the first HTTP 200 answer does not end the
    attempts when its body cannot be extracted; the three other candidates
    are still requested. *)
Lemma first_http_200_does_not_short_circuit :
  requests_get world_bad_archives
    "https://gitlab.com/group/project/-/archive/main/project-main.zip"
    = Ok (200%Z, "<html>Sign in</html>") /\
  clone_gitlab_repo world_bad_archives "https://gitlab.com/group/project" =
    ([ GitClone "https://gitlab.com/group/project.git";
       HttpGet "https://gitlab.com/group/project/-/archive/main/project-main.zip";
       HttpGet "https://gitlab.com/group/project/-/archive/master/project-master.zip";
       HttpGet "https://gitlab.com/group/project/repository/archive.zip?ref=main";
       HttpGet "https://gitlab.com/group/project/repository/archive.zip?ref=master" ],
     Ok false).
Proof. split; reflexivity. Qed.

(** ** Absorbed failures *)

Section AbsorbedFailures.








Lemma candidates_are_readable (directory : list entry) (f : source_file) :
  In f (find_streamlit_files directory) -> file_data f <> Unreadable.
Proof.
  unfold find_streamlit_files. intros H.
  apply in_flat_map in H as ([root files] & _ & H).
  apply in_flat_map in H as ([name data] & _ & H).
  unfold streamlit_candidate in H.
  destruct (Text.endswith ".py" name); [|destruct H].
  destruct data; simpl in H; try destruct H;
    try (destruct (_ || _); [destruct H as [<- | []]; discriminate | destruct H]).
Qed.

End AbsorbedFailures.




(** ** PatternDetector: the matcher finds what the pattern accepts *)

Section MatcherFacts.

Local Open Scope string_scope.

Lemma take_cont_split (s : string) :
  s = fst (Re.take_cont s) ++ snd (Re.take_cont s).
Proof.
  induction s as [|c s IH]; simpl; [reflexivity|].
  destruct (Re.is_cont c); [|reflexivity].
  destruct (Re.take_cont s) as [t r]. simpl in *. now rewrite IH at 1.
Qed.

(** A step consumes at least one byte. *)
Lemma step_shorter (k : Re.cclass) (s t s' : string) :
  Re.step k s = Some (t, s') -> (String.length s' < String.length s)%nat.
Proof.
  destruct s as [|c s]; simpl; [discriminate|].
  destruct k as [a | |].
  - destruct (Ascii.eqb _ _); [|discriminate]. intros H. injection H as _ <-. lia.
  - destruct (Re.is_space c); [|discriminate]. intros H. injection H as _ <-. lia.
  - destruct (Ascii.eqb c "010"); [discriminate|].
    pose proof (take_cont_split s) as E.
    destruct (Re.take_cont s) as [t0 r]. simpl in E. intros H. injection H as _ <-.
    rewrite E, length_append. lia.
Qed.

(** Greedy repetition succeeds whenever some number of repetitions leads
    to a string the rest of the pattern matches. *)
Lemma star_complete (k : Re.cclass) (cont : string -> option (string * string))
    (s s' : string) :
  reaches k s s' -> cont s' <> None ->
  forall fuel, (String.length s <= fuel)%nat -> Re.star fuel k cont s <> None.
Proof.
  induction 1 as [s | s t s1 s2 Hstep Hreach IH]; intros Hc fuel Hfuel.
  - destruct fuel as [|fuel]; simpl; [exact Hc|].
    destruct (Re.step k s) as [[t s1]|]; [|exact Hc].
    destruct (Re.star fuel k cont s1) as [[m r]|]; [discriminate | exact Hc].
  - pose proof (step_shorter _ _ _ _ Hstep) as Hlt.
    destruct fuel as [|fuel]; [lia|]. simpl. rewrite Hstep.
    specialize (IH Hc fuel ltac:(lia)).
    destruct (Re.star fuel k cont s1) as [[m r]|]; [discriminate | contradiction].
Qed.

Lemma match_here_complete (re : Re.regex) (s : string) :
  accepts re s -> Re.match_here re s <> None.
Proof.
  induction 1 as [s | k re s t s' Hstep _ IH | k re s s' Hreach _ IH
                 | k re s t s1 s' Hstep Hreach _ IH]; simpl.
  - discriminate.
  - rewrite Hstep. destruct (Re.match_here re s') as [[m r]|]; [discriminate | contradiction].
  - apply (star_complete k _ s s' Hreach IH). lia.
  - rewrite Hstep.
    pose proof (star_complete k _ s1 s' Hreach IH (String.length s1) (le_n _)) as H.
    destruct (Re.star _ k _ s1) as [[m r]|]; [discriminate | contradiction].
Qed.

(** Skipping continuation bytes never skips a byte that starts a
    character. *)
Lemma take_cont_keeps (pre : string) (c : ascii) (suf : string) :
  Re.is_cont c = false ->
  exists pre', snd (Re.take_cont (pre ++ String c suf)) = pre' ++ String c suf /\
               (String.length pre' <= String.length pre)%nat.
Proof.
  intros Hc. induction pre as [|x pre (pre' & E & L)]; simpl.
  - rewrite Hc. exists "". split; [reflexivity | simpl; lia].
  - destruct (Re.is_cont x).
    + destruct (Re.take_cont (pre ++ String c suf)) as [t r]. simpl in *.
      exists pre'. split; [exact E | lia].
    + exists (String x pre). split; [reflexivity | simpl; lia].
Qed.

(** The scan finds a match when the pattern matches at the start of some
    character of the content. *)
Lemma findall_from_complete (re : Re.regex) (c : ascii) (suf : string) :
  Re.is_cont c = false -> Re.match_here re (String c suf) <> None ->
  forall (fuel : nat) (pre : string),
    (String.length (pre ++ String c suf) < fuel)%nat ->
    Re.findall_from fuel re (pre ++ String c suf) <> [].
Proof.
  intros Hc Hm fuel. induction fuel as [|fuel IH]; intros pre Hlen; [lia|].
  simpl. destruct (Re.match_here re (pre ++ String c suf)) as [[m r]|] eqn:E.
  - destruct m; discriminate.
  - destruct pre as [|x pre]; [simpl in E; congruence|].
    simpl. destruct (take_cont_keeps pre c suf Hc) as (pre' & -> & L).
    apply IH. simpl in Hlen. rewrite length_append in *. simpl in *. lia.
Qed.

Lemma findall_complete (pattern pre suf : string) (c : ascii) :
  Re.is_cont c = false -> accepts (Re.compile pattern) (String c suf) ->
  truthy (Re.findall pattern (pre ++ String c suf)) = true.
Proof.
  intros Hc Ha. unfold Re.findall.
  pose proof (findall_from_complete _ c suf Hc (match_here_complete _ _ Ha)
                (S (String.length (pre ++ String c suf))) pre (Nat.lt_succ_diag_r _)) as H.
  destruct (Re.findall_from _ _ _); [contradiction | reflexivity].
Qed.

(** A word that equals the literal up to letter case is accepted by the
    pattern of the literal, followed by whatever accepts the rest. *)
Lemma accepts_literal (word : string) (re : Re.regex) :
  forall kw rest : string,
    Text.lower kw = Text.lower word -> accepts re rest ->
    accepts (literal word ++ re)%list (kw ++ rest).
Proof.
  induction word as [|a word IH]; intros kw rest Hk Hr.
  - destruct kw; [exact Hr | discriminate].
  - destruct kw as [|c kw]; [discriminate|]. simpl in Hk. injection Hk as Hc Hk.
    simpl. eapply accepts_one.
    + simpl. rewrite Hc, Ascii.eqb_refl. reflexivity.
    + apply IH; assumption.
Qed.

Lemma reaches_spaces (ws rest : string) :
  all_space ws = true -> reaches Re.Space (ws ++ rest) rest.
Proof.
  induction ws as [|c ws IH]; simpl; intros H; [constructor|].
  apply andb_true_iff in H as [Hc Hws].
  eapply reaches_next; [simpl; rewrite Hc; reflexivity | apply IH, Hws].
Qed.

(** Non-empty white space, then what [re] accepts: accepted by [\s+]
    followed by [re]. *)
Lemma accepts_blank (ws rest : string) (re : Re.regex) :
  blank ws -> accepts re rest -> accepts ((Re.Space, Re.Plus) :: re) (ws ++ rest).
Proof.
  intros [Hne Hws] Hr. destruct ws as [|c ws]; [contradiction|].
  simpl in Hws. apply andb_true_iff in Hws as [Hc Hws].
  eapply accepts_plus; [simpl; rewrite Hc; reflexivity | apply reaches_spaces, Hws | exact Hr].
Qed.

(** A word that is [word] up to letter case starts with an ASCII letter
    when [word] does. *)
Lemma lower_head (kw word : string) (a : ascii) :
  Text.lower kw = String a word ->
  exists c kw', kw = String c kw' /\ Text.lower_ascii c = a.
Proof.
  destruct kw as [|c kw]; [discriminate|]. simpl. intros H. injection H as H _.
  now exists c, kw.
Qed.

Lemma lower_ascii_not_cont (c : ascii) :
  Re.is_cont (Text.lower_ascii c) = false -> Re.is_cont c = false.
Proof.
  unfold Text.lower_ascii. destruct (_ && _)%N eqn:E; [|auto].
  intros _. unfold Re.is_cont. apply andb_true_iff in E as [_ E].
  apply N.leb_le in E. apply andb_false_iff. left. apply N.leb_gt. lia.
Qed.

(** The import patterns of the gettext category find a gettext-style
    import. *)
Lemma gettext_import_found (content : string) :
  gettext_style_import content ->
  truthy (Re.findall "import\s+gettext" content) = true \/
  truthy (Re.findall "from\s+gettext\s+import" content) = true.
Proof.
  intros [(pre & kw & ws & g & post & -> & Hkw & Hws & Hg)
         |(pre & f & ws1 & g & ws2 & kw & post & -> & Hf & Hws1 & Hg & Hws2 & Hkw)].
  - left. destruct (lower_head _ _ _ Hkw) as (c & kw' & -> & Hc).
    apply findall_complete.
    + apply lower_ascii_not_cont. rewrite Hc. reflexivity.
    + change (Re.compile "import\s+gettext")
        with (literal "import" ++ (Re.Space, Re.Plus) :: literal "gettext" ++ [])%list.
      apply (accepts_literal "import" _ (String c kw')); [exact Hkw|].
      apply accepts_blank; [exact Hws|].
      apply (accepts_literal "gettext"); [exact Hg | constructor].
  - right. destruct (lower_head _ _ _ Hf) as (c & f' & -> & Hc).
    apply findall_complete.
    + apply lower_ascii_not_cont. rewrite Hc. reflexivity.
    + change (Re.compile "from\s+gettext\s+import")
        with (literal "from" ++ (Re.Space, Re.Plus) :: literal "gettext"
                ++ (Re.Space, Re.Plus) :: literal "import" ++ [])%list.
      apply (accepts_literal "from" _ (String c f')); [exact Hf|].
      apply accepts_blank; [exact Hws1|].
      apply (accepts_literal "gettext"); [exact Hg|].
      apply accepts_blank; [exact Hws2|].
      apply (accepts_literal "import"); [exact Hkw | constructor].
Qed.

End MatcherFacts.

(** ** From one file to the report *)

Section DictFacts.

Context {V : Type}.

Lemma dict_get_set_same (k : string) (v : V) (d : dict V) :
  dict_get k (dict_set k v d) = Some v.
Proof.
  induction d as [|[k' v'] d IH]; simpl.
  - now rewrite String.eqb_refl.
  - destruct (String.eqb k k') eqn:E; simpl; [now rewrite String.eqb_refl|].
    now rewrite E.
Qed.

Lemma dict_get_set_other (k k' : string) (v : V) (d : dict V) :
  k <> k' -> dict_get k (dict_set k' v d) = dict_get k d.
Proof.
  intros Hne. induction d as [|[k0 v0] d IH]; simpl.
  - apply String.eqb_neq in Hne. now rewrite Hne.
  - destruct (String.eqb k' k0) eqn:E; simpl.
    + apply String.eqb_eq in E. subst k0.
      apply String.eqb_neq in Hne. now rewrite Hne.
    + destruct (String.eqb k k0); [reflexivity | exact IH].
Qed.

Lemma dict_get_any_values {A : Type} (k : string) (l : list A) (d : dict (list A)) :
  dict_get k d = Some l -> truthy l = true -> any_values d = true.
Proof.
  unfold any_values, dict_values.
  induction d as [|[k' v'] d IH]; simpl; [discriminate|].
  destruct (String.eqb k k').
  - intros H. injection H as ->. intros ->. reflexivity.
  - intros H Hl. rewrite (IH H Hl). apply orb_true_r.
Qed.

End DictFacts.

Section FoldFacts.

Context {X Y : Type} (f : X -> list Y).

Lemma fold_keep_other (items : list (string * X)) :
  forall (d : dict (list Y)) (k : string),
    ~ In k (map fst items) ->
    dict_get k (fold_left (keep_truthy f) items d) = dict_get k d.
Proof.
  induction items as [|[k' x] items IH]; intros d k Hk; simpl; [reflexivity|].
  simpl in Hk. rewrite IH by tauto.
  destruct (truthy (f x)); [|reflexivity].
  apply dict_get_set_other. intros ->. tauto.
Qed.

Lemma fold_keep_get (items : list (string * X)) :
  NoDup (map fst items) ->
  forall (d : dict (list Y)) (k : string) (x : X),
    In (k, x) items -> truthy (f x) = true ->
    dict_get k (fold_left (keep_truthy f) items d) = Some (f x).
Proof.
  induction items as [|[k' x'] items IH]; intros Hnd d k x Hin Ht; [destruct Hin|].
  simpl in Hnd. inversion Hnd as [|? ? Hk' Hnd']; subst.
  destruct Hin as [E | Hin].
  - injection E as -> ->. simpl. rewrite fold_keep_other by exact Hk'.
    rewrite Ht. apply dict_get_set_same.
  - simpl. now apply IH.
Qed.

End FoldFacts.

Section ReportFacts.

Lemma type_matches_truthy (content : string) (pattern_list : list string) :
  forall init,
    truthy (fold_left
              (fun matches pattern =>
                 let found := Re.findall pattern content in
                 if truthy found then matches ++ found else matches)
              pattern_list init) =
    truthy init || existsb (fun pattern => truthy (Re.findall pattern content)) pattern_list.
Proof.
  induction pattern_list as [|p pl IH]; intros init; simpl.
  - now rewrite orb_false_r.
  - rewrite IH. destruct (Re.findall p content) as [|m ms]; simpl; [reflexivity|].
    destruct init; simpl; [reflexivity|]. reflexivity.
Qed.

Lemma type_matches_found (content : string) (pattern_list : list string) :
  truthy (type_matches content pattern_list) =
  existsb (fun pattern => truthy (Re.findall pattern content)) pattern_list.
Proof. unfold type_matches. now rewrite type_matches_truthy. Qed.

Lemma category_matches_fold (content : string) (pattern_dict : dict (list string)) :
  category_matches content pattern_dict =
  fold_left (keep_truthy (type_matches content)) pattern_dict [].
Proof. reflexivity. Qed.

Lemma content_patterns_fold (content : string) :
  content_patterns content = fold_left (keep_truthy (category_matches content)) patterns [].
Proof. reflexivity. Qed.

Lemma patterns_keys_nodup : NoDup (map fst patterns).
Proof. repeat (constructor; [simpl; intuition discriminate|]). constructor. Qed.

Lemma gettext_dict_in_patterns : In ("gettext", gettext_dict) patterns.
Proof. left. reflexivity. Qed.

Lemma gettext_dict_keys_nodup : NoDup (map fst gettext_dict).
Proof. repeat (constructor; [simpl; intuition discriminate|]). constructor. Qed.

Lemma gettext_imports_in_dict :
  In ("imports", ["import\s+gettext"; "from\s+gettext\s+import"]) gettext_dict.
Proof. left. reflexivity. Qed.

(** A file with a gettext-style import has a gettext category with
    non-empty imports. *)
Lemma gettext_category_found (content : string) :
  gettext_style_import content ->
  exists category imports,
    dict_get "gettext" (content_patterns content) = Some category /\
    dict_get "imports" category = Some imports /\
    truthy imports = true /\ truthy category = true.
Proof.
  intros H.
  assert (Hi : truthy (type_matches content ["import\s+gettext"; "from\s+gettext\s+import"])
               = true).
  { rewrite type_matches_found. cbn [existsb].
    destruct (gettext_import_found content H) as [E | E]; rewrite E;
      [reflexivity | apply orb_true_r]. }
  assert (Hc : dict_get "imports" (category_matches content gettext_dict)
               = Some (type_matches content ["import\s+gettext"; "from\s+gettext\s+import"])).
  { rewrite category_matches_fold.
    exact (fold_keep_get (type_matches content) gettext_dict gettext_dict_keys_nodup
             [] "imports" _ gettext_imports_in_dict Hi). }
  assert (Ht : truthy (category_matches content gettext_dict) = true).
  { destruct (category_matches content gettext_dict); [discriminate Hc | reflexivity]. }
  exists (category_matches content gettext_dict),
         (type_matches content ["import\s+gettext"; "from\s+gettext\s+import"]).
  split; [|auto].
  rewrite content_patterns_fold.
  exact (fold_keep_get (category_matches content) patterns patterns_keys_nodup
           [] "gettext" _ gettext_dict_in_patterns Ht).
Qed.

Lemma fold_candidates_get_other (files : list source_file) :
  forall acc (k : string),
    ~ In k (map candidate_key files) ->
    dict_get k (fst (fold_left analyze_candidate files acc)) = dict_get k (fst acc).
Proof.
  induction files as [|f files IH]; intros [ap al] k Hk; cbn [fold_left]; [reflexivity|].
  cbn [map In] in Hk. rewrite IH by tauto. unfold analyze_candidate. cbn [fst].
  assert (E : dict_get k (if truthy (analyze_i18n_patterns f)
                          then dict_set (path_str (file_path f)) (analyze_i18n_patterns f) ap
                          else ap) = dict_get k ap).
  { destruct (truthy _); [|reflexivity].
    apply dict_get_set_other. intros ->. apply Hk. left. reflexivity. }
  destruct (read_ignore (file_data f)); exact E.
Qed.

Lemma fold_candidates_get (files : list source_file) :
  NoDup (map candidate_key files) ->
  forall acc (f : source_file),
    In f files -> truthy (analyze_i18n_patterns f) = true ->
    dict_get (candidate_key f) (fst (fold_left analyze_candidate files acc))
    = Some (analyze_i18n_patterns f).
Proof.
  induction files as [|f' files IH]; intros Hnd [ap al] f Hin Ht; [destruct Hin|].
  cbn [map] in Hnd. inversion Hnd as [|? ? Hk Hnd']; subst.
  destruct Hin as [-> | Hin].
  - cbn [fold_left]. rewrite fold_candidates_get_other by exact Hk.
    unfold analyze_candidate. rewrite Ht.
    destruct (read_ignore (file_data f)); apply dict_get_set_same.
  - cbn [fold_left]. now apply IH.
Qed.

Lemma dict_get_path_str (k : string) (d : dict (list path)) :
  dict_get k (map (fun '(k, v) => (k, map path_str v)) d) =
  option_map (map path_str) (dict_get k d).
Proof.
  induction d as [|[k' v] d IH]; simpl; [reflexivity|].
  destruct (String.eqb k k'); [reflexivity | exact IH].
Qed.

Lemma po_file_in_bucket (directory : list entry) (root : path)
    (files : list (string * payload)) (name : string) (data : payload) :
  In (root, files) (os_walk keep_visible_dir directory) ->
  In (name, data) files -> Text.endswith ".po" name = true ->
  In (root ++ [name]) (bucket_members "po_files" directory).
Proof.
  intros Hd Hf Hpo. unfold bucket_members.
  apply in_flat_map. exists (root, files). split; [exact Hd|].
  apply in_flat_map. exists (name, data). split; [exact Hf|].
  unfold in_bucket, translation_bucket. simpl. rewrite Hpo. left. reflexivity.
Qed.

End ReportFacts.

(** C6, for a candidate file: when a candidate file (a readable [.py] file
    with the Streamlit marker, outside the excluded directories, the paths
    of the candidates being pairwise distinct) contains a gettext-style
    import and the walk of the translation index meets a [.po] file, the
    pattern matches of the report hold, under the path of that file, a
    gettext category with non-empty imports; the [po_files] bucket holds the
    [.po] file; and the score is at least 70, so the repository is
    classified multilingual. *)
Theorem gettext_import_and_po_file
    (directory : list entry) (f : source_file) (content : string)
    (root : path) (files : list (string * payload)) (name : string) (data : payload) :
  In f (find_streamlit_files directory) ->
  NoDup (map candidate_key (find_streamlit_files directory)) ->
  read_ignore (file_data f) = Ok content ->
  gettext_style_import content ->
  In (root, files) (os_walk keep_visible_dir directory) ->
  In (name, data) files ->
  Text.endswith ".po" name = true ->
  let r := generate_multilingual_report directory in
  (exists file_patterns category imports,
      dict_get (candidate_key f) (i18n_patterns r) = Some file_patterns /\
      dict_get "gettext" file_patterns = Some category /\
      dict_get "imports" category = Some imports /\
      imports <> []) /\
  (exists po_files,
      dict_get "po_files" (translation_files r) = Some po_files /\
      In (path_str (root ++ [name])) po_files) /\
  (70 <= confidence_score r)%Z /\
  is_multilingual r = true.
Proof.
  intros Hf Hnd Hread Himport Hdir Hfile Hpo.
  destruct (gettext_category_found content Himport)
    as (category & imports & Hcat & Himp & Hti & Htc).
  assert (Ha : analyze_i18n_patterns f = content_patterns content).
  { unfold analyze_i18n_patterns. now rewrite Hread. }
  assert (Hta : truthy (analyze_i18n_patterns f) = true).
  { rewrite Ha. destruct (content_patterns content); [discriminate Hcat | reflexivity]. }
  pose proof (fold_candidates_get _ Hnd ([], empty_set string) f Hf Hta) as Hget.
  assert (Hbucket : dict_get "po_files" (find_translation_files directory)
                    = Some (bucket_members "po_files" directory)).
  { rewrite find_translation_files_get. reflexivity. }
  pose proof (po_file_in_bucket directory root files name data Hdir Hfile Hpo) as Hin.
  assert (Hany : any_values (find_translation_files directory) = true).
  { apply (dict_get_any_values _ _ _ Hbucket).
    destruct (bucket_members "po_files" directory); [destruct Hin | reflexivity]. }
  cbv zeta. unfold generate_multilingual_report.
  destruct (fold_left analyze_candidate (find_streamlit_files directory) ([], empty_set string))
    as [all_patterns all_languages].
  cbn [fst] in Hget.
  cbn [i18n_patterns translation_files confidence_score is_multilingual].
  assert (Htp : truthy all_patterns = true).
  { destruct all_patterns; [discriminate Hget | reflexivity]. }
  assert (Hscore : (70 <= raw_score all_patterns (find_translation_files directory)
                            (analyze_requirements_file directory) all_languages)%Z).
  { unfold raw_score. rewrite Htp, Hany.
    destruct (truthy (found_packages (analyze_requirements_file directory))),
      (1 <? List.length all_languages)%nat; cbv; discriminate. }
  split; [|split; [|split]].
  - exists (analyze_i18n_patterns f), category, imports.
    split; [exact Hget|]. rewrite Ha. split; [exact Hcat|]. split; [exact Himp|].
    intros ->. discriminate Hti.
  - exists (map path_str (bucket_members "po_files" directory)). split.
    + rewrite dict_get_path_str, Hbucket. reflexivity.
    + apply in_map. exact Hin.
  - lia.
  - apply Z.leb_le. lia.
Qed.

(** C6 as stated fails: a repository with a [.py] file that imports
    gettext but bears no Streamlit marker, next to a [.po] file, has no
    pattern match at all and scores 30. *)
Lemma gettext_import_outside_candidates :
  let directory := [ File "i18n_utils.py" (Utf8 "import gettext");
                     File "messages.po" (Utf8 "msgid") ] in
  let r := generate_multilingual_report directory in
  truthy (Re.findall "import\s+gettext" "import gettext") = true /\
  streamlit_files r = [] /\
  i18n_patterns r = [] /\
  dict_get "po_files" (translation_files r) = Some ["messages.po"] /\
  confidence_score r = 30%Z.
Proof. vm_compute. repeat split; reflexivity. Qed.

Lemma gettext_import_and_po_file_witness :
  let r := generate_multilingual_report repo_with_gettext in
  In {| file_path := ["app.py"];
        file_data := Utf8 "import streamlit as st
import gettext" |} (find_streamlit_files repo_with_gettext) /\
  gettext_style_import "import streamlit as st
import gettext" /\
  (70 <= confidence_score r)%Z /\
  is_multilingual r = true.
Proof.
  assert (H1 : In {| file_path := ["app.py"];
                     file_data := Utf8 "import streamlit as st
import gettext" |} (find_streamlit_files repo_with_gettext))
    by (vm_compute; left; reflexivity).
  assert (H2 : NoDup (map candidate_key (find_streamlit_files repo_with_gettext)))
    by (vm_compute; repeat constructor; intros []).
  assert (H4 : gettext_style_import "import streamlit as st
import gettext").
  { left. exists "import streamlit as st
", "import", " ", "gettext", "".
    repeat split; try reflexivity. discriminate. }
  assert (H5 : In (["locale"], [("messages.po", Utf8 "msgid")])
                  (os_walk keep_visible_dir repo_with_gettext))
    by (vm_compute; right; left; reflexivity).
  destruct (gettext_import_and_po_file repo_with_gettext _ _ _ _ "messages.po" (Utf8 "msgid")
              H1 H2 eq_refl H4 H5 (or_introl eq_refl) eq_refl) as (_ & _ & H70 & Hm).
  cbv zeta. split; [exact H1|]. split; [exact H4|]. split; [exact H70 | exact Hm].
Defined.

(* ================================================================= *)
(** * Further properties of the engine *)

(** ** More on strings *)

Section MoreTextFacts.

Local Open Scope string_scope.

Lemma contains_trans (a b c : string) :
  Text.contains a b = true -> Text.contains b c = true -> Text.contains a c = true.
Proof.
  rewrite !contains_iff. intros (p1 & q1 & ->) (p2 & q2 & ->).
  exists (p2 ++ p1), (q1 ++ q2). now rewrite !append_assoc.
Qed.

Lemma lower_idempotent (s : string) : Text.lower (Text.lower s) = Text.lower s.
Proof.
  induction s as [|c s IH]; simpl; [reflexivity|].
  now rewrite lower_ascii_idempotent, IH.
Qed.

Lemma lower_length (s : string) : String.length (Text.lower s) = String.length s.
Proof. induction s as [|c s IH]; simpl; [reflexivity | now rewrite IH]. Qed.

(** What lower-cases to a concatenation is a concatenation of what
    lower-cases to the parts. *)
Lemma lower_split (s a b : string) :
  Text.lower s = a ++ b ->
  exists s1 s2, s = s1 ++ s2 /\ Text.lower s1 = a /\ Text.lower s2 = b.
Proof.
  revert s. induction a as [|x a IH]; intros s H.
  - now exists "", s.
  - destruct s as [|c s]; [discriminate|]. simpl in H. injection H as Hc H.
    destruct (IH s H) as (s1 & s2 & -> & H1 & H2).
    exists (String c s1), s2. simpl. now rewrite Hc, H1.
Qed.

(** An occurrence in the lower-cased text is the lower case of a piece of
    the text. *)
Lemma contains_lower_inv (needle content : string) :
  Text.contains needle (Text.lower content) = true ->
  exists pre kw post, content = pre ++ kw ++ post /\ Text.lower kw = needle.
Proof.
  intros H. apply contains_inv in H as (p & q & H).
  apply lower_split in H as (pre & rest & -> & _ & H).
  apply lower_split in H as (kw & post & -> & Hk & _).
  now exists pre, kw, post.
Qed.

End MoreTextFacts.

(** ** LanguageContentDetector: more text, no fewer languages *)

(** X1: embedding a text in a longer one never loses a language: what is
    detected in [content] is detected in [pre ++ content ++ post]. *)
Theorem detection_is_monotone (pre content post : string) :
  incl (detect_languages_in_content content)
       (detect_languages_in_content (pre ++ content ++ post)).
Proof.
  intros lang H.
  destruct (proj1 (detect_languages_iff content lang) H) as (inds & i & Hin & Hi & Hc).
  apply detect_languages_iff. exists inds, i. split; [exact Hin|]. split; [exact Hi|].
  destruct (indicators_lower _ _ _ Hin Hi) as [Hl Hs]. rewrite Hl in Hc |- *.
  exact (contains_str_lower_mono i pre content post Hs Hc).
Qed.

(** X2: detection does not see letter case: the content and its lower
    case give the same set, so two texts that differ in letter case only
    give the same set. *)
Theorem detection_ignores_case (content content' : string) :
  detect_languages_in_content (Text.lower content) = detect_languages_in_content content /\
  (Text.lower content = Text.lower content' ->
   detect_languages_in_content content = detect_languages_in_content content').
Proof.
  unfold detect_languages_in_content. split.
  - now rewrite str_lower_lower.
  - intros H. now rewrite <- (str_lower_lower content), H, str_lower_lower.
Qed.

Lemma detection_ignores_case_witness :
  Text.lower "Namaste HINDI" = Text.lower "namaste hindi" /\
  detect_languages_in_content "Namaste HINDI" = detect_languages_in_content "namaste hindi".
Proof.
  split; [reflexivity|].
  apply (proj2 (detection_ignores_case "Namaste HINDI" "namaste hindi")). reflexivity.
Defined.

(** ** ReportAssembler: what the report aggregates *)

Section AggregateFacts.

Lemma report_patterns (directory : list entry) :
  i18n_patterns (generate_multilingual_report directory) =
  fst (fold_left analyze_candidate (find_streamlit_files directory) ([], empty_set string)).
Proof.
  unfold generate_multilingual_report.
  destruct (fold_left analyze_candidate _ _). reflexivity.
Qed.

Lemma report_languages (directory : list entry) :
  detected_languages (generate_multilingual_report directory) =
  snd (fold_left analyze_candidate (find_streamlit_files directory) ([], empty_set string)).
Proof.
  unfold generate_multilingual_report.
  destruct (fold_left analyze_candidate _ _). reflexivity.
Qed.

Lemma fold_candidates_languages (files : list source_file) (lang : string) :
  forall acc,
    In lang (snd (fold_left analyze_candidate files acc)) <->
    In lang (snd acc) \/
    exists f content,
      In f files /\ read_ignore (file_data f) = Ok content /\
      In lang (detect_languages_in_content content).
Proof.
  induction files as [|f files IH]; intros [ap al]; cbn [fold_left].
  - split; [now left | intros [H | (f & c & [] & _)]; exact H].
  - rewrite IH. unfold analyze_candidate.
    destruct (read_ignore (file_data f)) as [content|e] eqn:E; cbn [snd].
    + rewrite set_union_iff. split.
      * intros [[H | H] | (g & c & Hg & Hr & Hl)].
        -- left. exact H.
        -- right. exists f, content. exact (conj (or_introl eq_refl) (conj E H)).
        -- right. exists g, c. exact (conj (or_intror Hg) (conj Hr Hl)).
      * intros [H | (g & c & [-> | Hg] & Hr & Hl)].
        -- left. left. exact H.
        -- rewrite E in Hr. injection Hr as ->. left. right. exact Hl.
        -- right. exists g, c. exact (conj Hg (conj Hr Hl)).
    + split.
      * intros [H | (g & c & Hg & Hr & Hl)]; [left; exact H|].
        right. exists g, c. exact (conj (or_intror Hg) (conj Hr Hl)).
      * intros [H | (g & c & [-> | Hg] & Hr & Hl)]; [left; exact H | congruence |].
        right. exists g, c. exact (conj Hg (conj Hr Hl)).
Qed.

End AggregateFacts.

(** X3: the languages of the report are exactly the languages detected in
    some candidate file: the union of the per-file detections, nothing
    else. *)
Theorem report_languages_are_union (directory : list entry) (lang : string) :
  In lang (detected_languages (generate_multilingual_report directory)) <->
  exists f content,
    In f (find_streamlit_files directory) /\
    read_ignore (file_data f) = Ok content /\
    In lang (detect_languages_in_content content).
Proof.
  rewrite report_languages, fold_candidates_languages. cbn [snd].
  split; [intros [[] | H]; exact H | intros H; now right].
Qed.

(** X4: the marker that makes a file a candidate is itself an indicator:
    [streamlit] holds [ml], the code of Malayalam, so a repository with a
    candidate file that mentions [streamlit], in any letter case, always
    reports Malayalam. *)
Theorem streamlit_marker_reports_malayalam
    (directory : list entry) (f : source_file) (content : string) :
  In f (find_streamlit_files directory) ->
  read_ignore (file_data f) = Ok content ->
  Text.contains "streamlit" (Text.lower content) = true ->
  In "malayalam" (detected_languages (generate_multilingual_report directory)).
Proof.
  intros Hf Hr Hc. rewrite report_languages.
  apply (proj2 (fold_candidates_languages _ _ _)). right. exists f, content.
  split; [exact Hf|]. split; [exact Hr|].
  apply detect_languages_iff.
  exists ["ml"; "മലയാളം"; "നമസ്തേ"; "നന്ദി"; "ദയവായി"; "സ്വാഗതം"], "ml".
  split; [do 8 right; left; reflexivity|]. split; [left; reflexivity|].
  assert (Hm : Text.contains "ml" (Text.lower content) = true)
    by (apply (contains_trans _ "streamlit"); [reflexivity | exact Hc]).
  apply contains_lower_inv in Hm as (pre & kw & post & -> & Hk).
  exact (contains_str_lower_intro "ml" pre kw post eq_refl eq_refl Hk).
Qed.

Lemma streamlit_marker_reports_malayalam_witness :
  In "malayalam" (detected_languages (generate_multilingual_report repo_with_gettext)).
Proof.
  apply (streamlit_marker_reports_malayalam repo_with_gettext
           {| file_path := ["app.py"];
              file_data := Utf8 "import streamlit as st
import gettext" |}
           "import streamlit as st
import gettext").
  - vm_compute. left. reflexivity.
  - reflexivity.
  - reflexivity.
Defined.

(** ** PatternDetector: the shape of the result *)

Section KeepFacts.

Context {X Y : Type} (f : X -> list Y).

Lemma dict_get_in {V : Type} (k : string) (v : V) (d : dict V) :
  dict_get k d = Some v -> In (k, v) d.
Proof.
  induction d as [|[k' v'] d IH]; simpl; [discriminate|].
  destruct (String.eqb k k') eqn:E.
  - apply String.eqb_eq in E. subst k'. intros H. injection H as ->. now left.
  - intros H. right. now apply IH.
Qed.

Lemma dict_get_none {V : Type} (k : string) (d : dict V) :
  dict_get k d = None <-> ~ In k (map fst d).
Proof.
  induction d as [|[k' v'] d IH]; simpl; [tauto|].
  destruct (String.eqb k k') eqn:E.
  - apply String.eqb_eq in E. subst k'. split; [discriminate | intros H; contradict H; now left].
  - apply String.eqb_neq in E. rewrite IH. split.
    + intros H [H' | H']; [now apply E | now apply H].
    + intros H H'. apply H. now right.
Qed.

Lemma dict_set_keys {V : Type} (k : string) (v : V) (d : dict V) :
  map fst (dict_set k v d) =
  if in_dec string_dec k (map fst d) then map fst d else map fst d ++ [k].
Proof.
  induction d as [|[k' v'] d IH]; simpl; [reflexivity|].
  destruct (String.eqb k k') eqn:E.
  - apply String.eqb_eq in E. subst k'. simpl.
    destruct (string_dec k k); [|contradiction]. reflexivity.
  - apply String.eqb_neq in E. simpl. rewrite IH.
    destruct (string_dec k' k) as [He | Hne]; [symmetry in He; contradiction|].
    destruct (in_dec string_dec k (map fst d)); reflexivity.
Qed.

Lemma dict_set_keys_nodup {V : Type} (k : string) (v : V) (d : dict V) :
  NoDup (map fst d) -> NoDup (map fst (dict_set k v d)).
Proof.
  intros H. rewrite dict_set_keys.
  destruct (in_dec string_dec k (map fst d)) as [Hin | Hout]; [exact H|].
  apply NoDup_app; [exact H | repeat constructor; intros [] | ].
  intros x Hx [<- | []]. contradiction.
Qed.

(** Looking a key up after the loop: the value is there exactly when the
    key is an item whose result is non-empty. *)
Lemma fold_keep_lookup (items : list (string * X)) (k : string) :
  NoDup (map fst items) ->
  dict_get k (fold_left (keep_truthy f) items []) =
  match dict_get k items with
  | Some x => if truthy (f x) then Some (f x) else None
  | None => None
  end.
Proof.
  intros Hnd.
  assert (G : forall d, dict_get k d = None ->
              dict_get k (fold_left (keep_truthy f) items d) =
              match dict_get k items with
              | Some x => if truthy (f x) then Some (f x) else None
              | None => None
              end).
  { induction items as [|[k' x] items IH]; intros d Hd; simpl; [exact Hd|].
    inversion Hnd as [|? ? Hk' Hnd']; subst.
    destruct (String.eqb k k') eqn:E.
    - apply String.eqb_eq in E. subst k'.
      rewrite fold_keep_other by exact Hk'.
      destruct (truthy (f x)); [apply dict_get_set_same | exact Hd].
    - apply IH; [exact Hnd'|].
      destruct (truthy (f x)); [|exact Hd].
      rewrite dict_get_set_other; [exact Hd|].
      now apply String.eqb_neq. }
  now apply G.
Qed.

Lemma fold_keep_keys_nodup (items : list (string * X)) :
  forall d, NoDup (map fst d) -> NoDup (map fst (fold_left (keep_truthy f) items d)).
Proof.
  induction items as [|[k x] items IH]; intros d Hd; simpl; [exact Hd|].
  apply IH. destruct (truthy (f x)); [now apply dict_set_keys_nodup | exact Hd].
Qed.

End KeepFacts.

Section PatternShape.

(** The matches of a pattern type: those of its patterns, one pattern
    after the other. *)
Lemma type_matches_concat (content : string) (pattern_list : list string) :
  type_matches content pattern_list =
  flat_map (fun pattern => Re.findall pattern content) pattern_list.
Proof.
  unfold type_matches.
  assert (G : forall init,
             fold_left (fun matches pattern =>
                          let found := Re.findall pattern content in
                          if truthy found then matches ++ found else matches)
                       pattern_list init
             = init ++ flat_map (fun pattern => Re.findall pattern content) pattern_list).
  { induction pattern_list as [|p pl IH]; intros init; cbn [fold_left flat_map].
    - now rewrite app_nil_r.
    - rewrite IH. cbv zeta. destruct (Re.findall p content) as [|m ms]; cbn [truthy].
      + reflexivity.
      + now rewrite app_assoc. }
  apply G.
Qed.

Lemma pattern_dicts_nodup :
  Forall (fun e : string * dict (list string) => NoDup (map fst (snd e))) patterns.
Proof.
  repeat (constructor;
          [repeat (constructor; [simpl; intuition discriminate|]); constructor|]).
  constructor.
Qed.

End PatternShape.

(** X5: the result of the pattern detector, read by lookup.  A category is
    a key of the result exactly when it is a category of the taxonomy with
    a non-empty result, and a pattern type is a key of a category's result
    exactly when it is a type of that category with a match; the matches
    of a type are the matches of its patterns, concatenated in declaration
    order.  No key occurs twice. *)
Theorem pattern_result_by_lookup (content category pattern_type : string) :
  dict_get category (content_patterns content) =
    match dict_get category patterns with
    | Some pattern_dict =>
        if truthy (category_matches content pattern_dict)
        then Some (category_matches content pattern_dict) else None
    | None => None
    end /\
  (forall pattern_dict : dict (list string),
      In (category, pattern_dict) patterns ->
      dict_get pattern_type (category_matches content pattern_dict) =
        match dict_get pattern_type pattern_dict with
        | Some pattern_list =>
            if truthy (type_matches content pattern_list)
            then Some (type_matches content pattern_list) else None
        | None => None
        end /\
      NoDup (map fst (category_matches content pattern_dict))) /\
  (forall pattern_list : list string,
      type_matches content pattern_list =
      flat_map (fun pattern => Re.findall pattern content) pattern_list) /\
  NoDup (map fst (content_patterns content)).
Proof.
  split; [|split; [|split]].
  - rewrite content_patterns_fold. apply fold_keep_lookup, patterns_keys_nodup.
  - intros pattern_dict Hin.
    pose proof pattern_dicts_nodup as H. rewrite Forall_forall in H.
    specialize (H _ Hin). cbn [snd] in H.
    rewrite category_matches_fold. split.
    + now apply fold_keep_lookup.
    + apply fold_keep_keys_nodup. constructor.
  - apply type_matches_concat.
  - rewrite content_patterns_fold. apply fold_keep_keys_nodup. constructor.
Qed.

Lemma pattern_result_by_lookup_witness :
  dict_get "imports" (category_matches "from babel import Locale"
                        [ ("imports", ["import\s+babel"; "from\s+babel"]);
                          ("functions", ["Locale\("; "format_currency\("; "format_date\("]) ])
  = Some ["from babel"] /\
  dict_get "functions" (category_matches "from babel import Locale"
                          [ ("imports", ["import\s+babel"; "from\s+babel"]);
                            ("functions", ["Locale\("; "format_currency\("; "format_date\("]) ])
  = None.
Proof.
  destruct (pattern_result_by_lookup "from babel import Locale" "babel" "imports")
    as (_ & H1 & _).
  destruct (pattern_result_by_lookup "from babel import Locale" "babel" "functions")
    as (_ & H2 & _).
  split.
  - rewrite (proj1 (H1 _ (or_intror (or_intror (or_introl eq_refl))))). reflexivity.
  - rewrite (proj1 (H2 _ (or_intror (or_intror (or_introl eq_refl))))). reflexivity.
Defined.

(** ** PatternDetector: what is recorded occurs in the file *)

Section MatcherSoundness.

Local Open Scope string_scope.

Lemma step_split (k : Re.cclass) (s t s' : string) :
  Re.step k s = Some (t, s') -> s = t ++ s' /\ t <> "".
Proof.
  destruct s as [|c s]; simpl; [discriminate|].
  destruct k as [a | |].
  - destruct (Ascii.eqb _ _); [|discriminate]. intros H. injection H as <- <-.
    split; [reflexivity | discriminate].
  - destruct (Re.is_space c); [|discriminate]. intros H. injection H as <- <-.
    split; [reflexivity | discriminate].
  - destruct (Ascii.eqb c "010"); [discriminate|].
    pose proof (take_cont_split s) as E.
    destruct (Re.take_cont s) as [t0 r]. simpl in E. intros H. injection H as <- <-.
    split; [simpl; now rewrite E | discriminate].
Qed.

Lemma star_split (k : Re.cclass) (cont : string -> option (string * string)) :
  (forall s m r, cont s = Some (m, r) -> s = m ++ r) ->
  forall fuel s m r, Re.star fuel k cont s = Some (m, r) -> s = m ++ r.
Proof.
  intros Hc. induction fuel as [|fuel IH]; intros s m r; simpl; [apply Hc|].
  destruct (Re.step k s) as [[t s1]|] eqn:E; [|apply Hc].
  destruct (Re.star fuel k cont s1) as [[m1 r1]|] eqn:E1; [|apply Hc].
  intros H. injection H as <- <-.
  apply step_split in E as [-> _]. apply IH in E1 as ->. now rewrite append_assoc.
Qed.

(** A match is a prefix of the text it was found at. *)
Lemma match_here_split (re : Re.regex) :
  forall s m r, Re.match_here re s = Some (m, r) -> s = m ++ r.
Proof.
  induction re as [|[k q] re IH]; intros s m r; simpl.
  - intros H. now injection H as <- <-.
  - destruct q.
    + destruct (Re.step k s) as [[t s1]|] eqn:E; [|discriminate].
      destruct (Re.match_here re s1) as [[m1 r1]|] eqn:E1; [|discriminate].
      intros H. injection H as <- <-.
      apply step_split in E as [-> _]. apply IH in E1 as ->. now rewrite append_assoc.
    + apply star_split, IH.
    + destruct (Re.step k s) as [[t s1]|] eqn:E; [|discriminate].
      destruct (Re.star _ k _ s1) as [[m1 r1]|] eqn:E1; [|discriminate].
      intros H. injection H as <- <-.
      apply step_split in E as [-> _].
      apply (star_split k _ IH) in E1 as ->. now rewrite append_assoc.
Qed.

Lemma append_not_empty (t m : string) : t <> "" -> t ++ m <> "".
Proof. destruct t; [contradiction | discriminate]. Qed.

Lemma star_nonempty (k : Re.cclass) (cont : string -> option (string * string)) :
  (forall s m r, cont s = Some (m, r) -> m <> "") ->
  forall fuel s m r, Re.star fuel k cont s = Some (m, r) -> m <> "".
Proof.
  intros Hc. induction fuel as [|fuel IH]; intros s m r; simpl; [apply Hc|].
  destruct (Re.step k s) as [[t s1]|] eqn:E; [|apply Hc].
  destruct (Re.star fuel k cont s1) as [[m1 r1]|] eqn:E1; [|apply Hc].
  intros H. injection H as <- <-.
  apply step_split in E as [_ Ht]. now apply append_not_empty.
Qed.

(** A pattern with an item that is not starred has no empty match. *)
Lemma match_here_nonempty (re : Re.regex) :
  consumes re = true ->
  forall s m r, Re.match_here re s = Some (m, r) -> m <> "".
Proof.
  induction re as [|[k q] re IH]; intros Hre s m r; [discriminate|].
  simpl. destruct q.
  - destruct (Re.step k s) as [[t s1]|] eqn:E; [|discriminate].
    destruct (Re.match_here re s1) as [[m1 r1]|]; [|discriminate].
    intros H. injection H as <- <-.
    apply step_split in E as [_ Ht]. now apply append_not_empty.
  - apply star_nonempty, IH. exact Hre.
  - destruct (Re.step k s) as [[t s1]|] eqn:E; [|discriminate].
    destruct (Re.star _ k _ s1) as [[m1 r1]|]; [|discriminate].
    intros H. injection H as <- <-.
    apply step_split in E as [_ Ht]. now apply append_not_empty.
Qed.

Lemma next_char_suffix (s : string) : exists p, s = p ++ Re.next_char s.
Proof.
  destruct s as [|c s]; [now exists ""|]. simpl.
  exists (String c (fst (Re.take_cont s))). simpl. now rewrite <- take_cont_split.
Qed.

Lemma contains_suffix (m p s : string) :
  Text.contains m s = true -> Text.contains m (p ++ s) = true.
Proof.
  rewrite !contains_iff. intros (a & b & ->). exists (p ++ a), b.
  now rewrite append_assoc.
Qed.

(** Every text the scan returns occurs in the text scanned. *)
Lemma findall_from_sound (re : Re.regex) :
  forall fuel s m,
    In m (Re.findall_from fuel re s) ->
    Text.contains m s = true /\ (consumes re = true -> m <> "").
Proof.
  induction fuel as [|fuel IH]; intros s m; simpl; [intros []|].
  assert (Hnext : In m (Re.findall_from fuel re (Re.next_char s)) ->
                  Text.contains m s = true /\ (consumes re = true -> m <> "")).
  { intros H. apply IH in H as [H1 H2]. split; [|exact H2].
    destruct (next_char_suffix s) as [p E]. rewrite E. now apply contains_suffix. }
  destruct (Re.match_here re s) as [[m0 r]|] eqn:E.
  - pose proof (match_here_split _ _ _ _ E) as Hs.
    assert (Hm0 : Text.contains m0 s = true /\ (consumes re = true -> m0 <> "")).
    { split.
      - rewrite Hs. apply (contains_intro m0 "" r).
      - intros Hre. exact (match_here_nonempty re Hre _ _ _ E). }
    destruct m0 as [|c m0].
    + intros [<- | H]; [exact Hm0|]. destruct s; [destruct H | now apply Hnext].
    + intros [<- | H]; [exact Hm0|].
      apply IH in H as [H1 H2]. split; [|exact H2].
      rewrite Hs. now apply contains_suffix.
  - destruct s; [intros [] | exact Hnext].
Qed.

(** No pattern of the taxonomy has an empty match. *)
Lemma taxonomy_consumes (category pattern_type pattern : string)
    (pattern_dict : dict (list string)) (pattern_list : list string) :
  In (category, pattern_dict) patterns -> In (pattern_type, pattern_list) pattern_dict ->
  In pattern pattern_list -> consumes (Re.compile pattern) = true.
Proof.
  assert (H : forallb (fun e : string * dict (list string) =>
                forallb (fun t : string * list string =>
                  forallb (fun p => consumes (Re.compile p)) (snd t)) (snd e))
              patterns = true) by (vm_compute; reflexivity).
  intros H1 H2 H3. rewrite forallb_forall in H. specialize (H _ H1). cbn [snd] in H.
  rewrite forallb_forall in H. specialize (H _ H2). cbn [snd] in H.
  rewrite forallb_forall in H. exact (H _ H3).
Qed.

Lemma lookup_some_in {X Y : Type} (f : X -> list Y) (items : list (string * X))
    (k : string) (v : list Y) :
  NoDup (map fst items) ->
  dict_get k (fold_left (keep_truthy f) items []) = Some v ->
  exists x, In (k, x) items /\ v = f x /\ truthy v = true.
Proof.
  intros Hnd. rewrite fold_keep_lookup by exact Hnd.
  destruct (dict_get k items) as [x|] eqn:E; [|discriminate].
  destruct (truthy (f x)) eqn:T; [|discriminate].
  intros H. injection H as <-. exists x. split; [now apply dict_get_in | now split].
Qed.

End MatcherSoundness.

(** X6: every match the pattern detector records is a non-empty piece of
    the content of the file. *)
Theorem recorded_matches_occur
    (content category pattern_type m : string)
    (results : dict (list string)) (matches : list string) :
  dict_get category (content_patterns content) = Some results ->
  dict_get pattern_type results = Some matches ->
  In m matches ->
  m <> EmptyString /\ Text.contains m content = true.
Proof.
  intros Hc Ht Hm.
  rewrite content_patterns_fold in Hc.
  apply lookup_some_in in Hc as (pattern_dict & Hpd & -> & _);
    [|apply patterns_keys_nodup].
  pose proof pattern_dicts_nodup as Hnd. rewrite Forall_forall in Hnd.
  specialize (Hnd _ Hpd). cbn [snd] in Hnd.
  rewrite category_matches_fold in Ht.
  apply lookup_some_in in Ht as (pattern_list & Hpl & -> & _); [|exact Hnd].
  rewrite type_matches_concat in Hm.
  apply in_flat_map in Hm as (pattern & Hp & Hm).
  unfold Re.findall in Hm. apply findall_from_sound in Hm as [H1 H2].
  split; [|exact H1].
  apply H2. exact (taxonomy_consumes _ _ _ _ _ Hpd Hpl Hp).
Qed.

Lemma recorded_matches_occur_witness :
  "Import  GetText" <> EmptyString /\
  Text.contains "Import  GetText" "x = 1; Import  GetText" = true.
Proof.
  apply (recorded_matches_occur "x = 1; Import  GetText" "gettext" "imports"
           "Import  GetText"
           [("imports", ["Import  GetText"])] ["Import  GetText"]).
  - vm_compute. reflexivity.
  - reflexivity.
  - left. reflexivity.
Defined.

(** ** ReportAssembler: the aggregate of pattern matches *)

Section AggregatePatterns.

Lemma dict_set_forall {V : Type} (Q : string * V -> Prop) (k : string) (v : V) (d : dict V) :
  Forall Q d -> Q (k, v) -> Forall Q (dict_set k v d).
Proof.
  intros Hd Hk. induction d as [|[k' v'] d IH]; simpl; [now repeat constructor|].
  inversion Hd as [|? ? H1 H2]; subst.
  destruct (String.eqb k k'); constructor; auto.
Qed.

Lemma fold_candidates_entries (all : list source_file) (files : list source_file) :
  (forall f, In f files -> In f all) ->
  forall acc, Forall (entry_of all) (fst acc) ->
              Forall (entry_of all) (fst (fold_left analyze_candidate files acc)).
Proof.
  induction files as [|f files IH]; intros Hsub [ap al] Hacc; cbn [fold_left]; [exact Hacc|].
  apply IH; [intros g Hg; apply Hsub; now right|].
  unfold analyze_candidate.
  assert (H : Forall (entry_of all)
                (if truthy (analyze_i18n_patterns f)
                 then dict_set (path_str (file_path f)) (analyze_i18n_patterns f) ap
                 else ap)).
  { destruct (truthy (analyze_i18n_patterns f)) eqn:T; [|exact Hacc].
    apply dict_set_forall; [exact Hacc|]. split.
    - cbn [snd]. intros E. rewrite E in T. discriminate.
    - exists f. split; [apply Hsub; now left | split; reflexivity]. }
  destruct (read_ignore (file_data f)); exact H.
Qed.

Lemma fold_candidates_keys_nodup (files : list source_file) :
  forall acc, NoDup (map fst (fst acc)) ->
              NoDup (map fst (fst (fold_left analyze_candidate files acc))).
Proof.
  induction files as [|f files IH]; intros [ap al] Hacc; cbn [fold_left]; [exact Hacc|].
  apply IH. unfold analyze_candidate.
  assert (H : NoDup (map fst (if truthy (analyze_i18n_patterns f)
                              then dict_set (path_str (file_path f))
                                            (analyze_i18n_patterns f) ap
                              else ap))).
  { destruct (truthy _); [now apply dict_set_keys_nodup | exact Hacc]. }
  destruct (read_ignore (file_data f)); exact H.
Qed.

Lemma report_candidates (directory : list entry) :
  streamlit_files (generate_multilingual_report directory) =
  map candidate_key (find_streamlit_files directory).
Proof.
  unfold generate_multilingual_report.
  destruct (fold_left analyze_candidate _ _). reflexivity.
Qed.

(** With a pattern match in some candidate the score is at least 40. *)
Lemma patterns_score (directory : list entry) :
  truthy (i18n_patterns (generate_multilingual_report directory)) = true ->
  (40 <= confidence_score (generate_multilingual_report directory))%Z /\
  is_multilingual (generate_multilingual_report directory) = true.
Proof.
  unfold generate_multilingual_report.
  destruct (fold_left analyze_candidate _ _) as [all_patterns all_languages].
  cbn [i18n_patterns confidence_score is_multilingual]. intros H.
  unfold raw_score. rewrite H.
  destruct (any_values _), (truthy (found_packages _)), (1 <? _)%nat;
    split; cbv; congruence.
Qed.

End AggregatePatterns.

(** X7: the pattern matches of the report hold candidate files only: every
    key is the path of a candidate file listed in the report, its value is
    the non-empty result of the pattern detector on that file, and no key
    occurs twice. *)
Theorem report_patterns_are_candidates (directory : list entry) :
  let r := generate_multilingual_report directory in
  Forall (entry_of (find_streamlit_files directory)) (i18n_patterns r) /\
  NoDup (map fst (i18n_patterns r)) /\
  incl (map fst (i18n_patterns r)) (streamlit_files r).
Proof.
  cbv zeta. rewrite report_patterns, report_candidates.
  assert (H : Forall (entry_of (find_streamlit_files directory))
                (fst (fold_left analyze_candidate (find_streamlit_files directory)
                        ([], empty_set string)))).
  { apply fold_candidates_entries; [auto | constructor]. }
  split; [exact H|]. split.
  - apply fold_candidates_keys_nodup. constructor.
  - intros key Hkey. apply in_map_iff in Hkey as (e & <- & He).
    rewrite Forall_forall in H. destruct (H e He) as (_ & f & Hf & -> & _).
    exact (in_map candidate_key _ _ Hf).
Qed.

(** X8: the pattern [LANG] is matched without regard to case or word
    boundary: a candidate file whose content holds [lang] anywhere, in any
    letter case, has a [language_detection] category, which alone brings the
    score to 40 or more and the classification to multilingual. *)
Theorem lang_mention_makes_multilingual
    (directory : list entry) (f : source_file) (content : string) :
  In f (find_streamlit_files directory) ->
  read_ignore (file_data f) = Ok content ->
  Text.contains "lang" (Text.lower content) = true ->
  let r := generate_multilingual_report directory in
  (exists category, dict_get "language_detection" (content_patterns content) = Some category) /\
  (40 <= confidence_score r)%Z /\
  is_multilingual r = true.
Proof.
  intros Hf Hr Hc.
  destruct (contains_lower_inv _ _ Hc) as (pre & kw & post & -> & Hkw).
  destruct (lower_head _ _ _ Hkw) as (c & kw' & -> & Hc0).
  assert (Hfound : truthy (Re.findall "LANG" (pre ++ String c kw' ++ post)) = true).
  { apply (findall_complete "LANG" pre (kw' ++ post) c).
    - apply lower_ascii_not_cont. rewrite Hc0. reflexivity.
    - change (Re.compile "LANG") with (literal "LANG" ++ []).
      apply (accepts_literal "LANG" [] (String c kw') post); [exact Hkw | constructor]. }
  set (pattern_list := ["st\.selectbox.*lang"; "language.*select"; "locale"; "LANG"]).
  assert (Ht : truthy (type_matches (pre ++ String c kw' ++ post) pattern_list) = true).
  { rewrite type_matches_found. unfold pattern_list. cbn [existsb].
    rewrite Hfound. now rewrite !orb_true_r. }
  assert (Hcat : dict_get "patterns"
                   (category_matches (pre ++ String c kw' ++ post) [("patterns", pattern_list)])
                 = Some (type_matches (pre ++ String c kw' ++ post) pattern_list)).
  { rewrite category_matches_fold.
    apply (fold_keep_get (type_matches _) [("patterns", pattern_list)]);
      [repeat constructor; intros [] | now left | exact Ht]. }
  assert (Hcm : truthy (category_matches (pre ++ String c kw' ++ post)
                          [("patterns", pattern_list)]) = true).
  { destruct (category_matches _ _); [discriminate Hcat | reflexivity]. }
  assert (Hget : dict_get "language_detection" (content_patterns (pre ++ String c kw' ++ post))
                 = Some (category_matches (pre ++ String c kw' ++ post)
                           [("patterns", pattern_list)])).
  { rewrite content_patterns_fold.
    apply (fold_keep_get (category_matches _) patterns patterns_keys_nodup);
      [do 4 right; left; reflexivity | exact Hcm]. }
  cbv zeta. split; [eexists; exact Hget|].
  apply patterns_score. rewrite report_patterns, fold_candidates_patterns.
  cbn [fst truthy orb]. apply existsb_exists. exists f. split; [exact Hf|].
  unfold analyze_i18n_patterns. rewrite Hr.
  destruct (content_patterns _); [discriminate Hget | reflexivity].
Qed.

Lemma lang_mention_makes_multilingual_witness :
  let directory := [File "app.py" (Utf8 "import streamlit as st
st.write('Golang')")] in
  (40 <= confidence_score (generate_multilingual_report directory))%Z /\
  is_multilingual (generate_multilingual_report directory) = true.
Proof.
  cbv zeta.
  apply (lang_mention_makes_multilingual
           [File "app.py" (Utf8 "import streamlit as st
st.write('Golang')")]
           {| file_path := ["app.py"];
              file_data := Utf8 "import streamlit as st
st.write('Golang')" |}
           "import streamlit as st
st.write('Golang')").
  - vm_compute. left. reflexivity.
  - reflexivity.
  - reflexivity.
Defined.

(** ** FileDiscovery and TranslationFileIndex: where the walks go *)

Section WalkFacts.

Variable keep : string -> bool.

Lemma walk_entry_iff (e : entry) :
  forall (prefix p : path) (files : list (string * payload)),
    In (p, files) (walk_entry keep prefix e) <->
    exists n ch rel,
      e = Dir n ch /\ keep n = true /\ p = prefix ++ n :: rel /\ descends keep ch rel files.
Proof.
  induction e as [n d | n ch IH] using entry_tree_ind; intros prefix p files.
  - simpl. split; [intros [] | intros (n' & ch & rel & H & _); discriminate].
  - simpl. rewrite Forall_forall in IH. split.
    + destruct (keep n) eqn:K; [|intros []].
      intros [H | H].
      * injection H as <- <-. exists n, ch, []. repeat split; auto. constructor.
      * apply in_flat_map in H as (e' & He' & H).
        apply (IH e' He') in H as (n' & ch' & rel' & -> & K' & -> & Hd).
        exists n, ch, (n' :: rel'). repeat split; auto.
        -- now rewrite <- app_assoc.
        -- now apply (descends_into keep ch n' ch' rel' files).
    + intros (n0 & ch0 & rel & E & K & -> & Hd). injection E as <- <-.
      rewrite K. inversion Hd as [es | es n' ch' rel' files' Hin K' Hd']; subst.
      * now left.
      * right. apply in_flat_map. exists (Dir n' ch'). split; [exact Hin|].
        apply (IH _ Hin). exists n', ch', rel'. repeat split; auto.
        now rewrite <- app_assoc.
Qed.

(** The walk visits exactly the directories reached through kept
    directories. *)
Lemma os_walk_iff (directory : list entry) (p : path) (files : list (string * payload)) :
  In (p, files) (os_walk keep directory) <-> descends keep directory p files.
Proof.
  unfold os_walk, walk_dirs. split.
  - intros [H | H].
    + injection H as <- <-. constructor.
    + apply in_flat_map in H as (e & He & H).
      apply walk_entry_iff in H as (n & ch & rel & -> & K & -> & Hd).
      now apply (descends_into keep directory n ch rel files).
  - intros Hd. inversion Hd as [es | es n ch rel files' Hin K Hd']; subst.
    + now left.
    + right. apply in_flat_map. exists (Dir n ch). split; [exact Hin|].
      apply walk_entry_iff. exists n, ch, rel. now repeat split.
Qed.

Lemma descends_kept (es : list entry) (rel : path) (files : list (string * payload)) :
  descends keep es rel files -> Forall (fun n => keep n = true) rel.
Proof. induction 1; constructor; assumption. Qed.

End WalkFacts.

(** X9: file discovery finds exactly the files that lie in the directory
    or below directories that are all kept (not hidden, not [_pycache_],
    not [node_modules]), whose name ends with [.py], that can be read, and
    whose content holds [streamlit] in any letter case or [st.]. *)
Theorem candidates_exactly (directory : list entry) (f : source_file) :
  In f (find_streamlit_files directory) <->
  exists (rel : path) (files : list (string * payload)) (name content : string),
    descends keep_source_dir directory rel files /\
    Forall (fun n => keep_source_dir n = true) rel /\
    In (name, file_data f) files /\
    file_path f = rel ++ [name] /\
    Text.endswith ".py" name = true /\
    read_ignore (file_data f) = Ok content /\
    Text.contains "streamlit" (Text.lower content) || Text.contains "st." content = true.
Proof.
  unfold find_streamlit_files. rewrite in_flat_map. split.
  - intros ([rel files] & Hw & H).
    apply os_walk_iff in Hw.
    apply in_flat_map in H as ([name data] & Hfile & H).
    unfold streamlit_candidate in H.
    destruct (Text.endswith ".py" name) eqn:Epy; [|destruct H].
    destruct (read_ignore data) as [content|e] eqn:Er; [|destruct H].
    destruct (_ || _) eqn:Em; [|destruct H].
    destruct H as [<- | []]. cbn [file_path file_data].
    exists rel, files, name, content.
    repeat split; auto. eapply descends_kept; eassumption.
  - intros (rel & files & name & content & Hd & _ & Hfile & Hp & Epy & Er & Em).
    exists (rel, files). split; [now apply os_walk_iff|].
    apply in_flat_map. exists (name, file_data f). split; [exact Hfile|].
    unfold streamlit_candidate. rewrite Epy, Er, Em. left.
    destruct f as [fp fd]. cbn [file_path file_data] in *. now rewrite Hp.
Qed.

(** X10: a bucket of the translation index lists exactly the paths of the
    files whose name selects that bucket and that lie in the directory or
    below directories none of which is hidden. *)
Theorem translation_paths_exactly
    (directory : list entry) (key : string) (paths : list path) (p : path) :
  dict_get key (find_translation_files directory) = Some paths ->
  (In p paths <->
   exists (rel : path) (files : list (string * payload)) (name : string) (data : payload),
     descends keep_visible_dir directory rel files /\
     Forall (fun n => Text.startswith "." n = false) rel /\
     In (name, data) files /\
     p = rel ++ [name] /\
     translation_bucket name = Some key).
Proof.
  rewrite find_translation_files_get.
  destruct (dict_get key empty_translation_files); [|discriminate].
  cbn [option_map]. intros H. injection H as <-.
  unfold bucket_members. rewrite in_flat_map. split.
  - intros ([rel files] & Hw & H). apply os_walk_iff in Hw.
    apply in_flat_map in H as ([name data] & Hfile & H). cbn [fst] in H.
    unfold in_bucket in H.
    destruct (translation_bucket name) as [k|] eqn:Eb; [|destruct H].
    destruct (String.eqb key k) eqn:Ek; [|destruct H].
    apply String.eqb_eq in Ek. subst k. destruct H as [<- | []].
    exists rel, files, name, data. repeat split; auto.
    pose proof (descends_kept _ _ _ _ Hw) as Hk.
    eapply Forall_impl; [|exact Hk]. intros n Hn.
    unfold keep_visible_dir in Hn. now apply negb_true_iff in Hn.
  - intros (rel & files & name & data & Hd & _ & Hfile & -> & Eb).
    exists (rel, files). split; [now apply os_walk_iff|].
    apply in_flat_map. exists (name, data). split; [exact Hfile|].
    cbn [fst]. unfold in_bucket. rewrite Eb, String.eqb_refl. now left.
Qed.

Lemma translation_paths_exactly_witness :
  In ["locale"; "messages.po"] [["locale"; "messages.po"]] <->
  exists (rel : path) (files : list (string * payload)) (name : string) (data : payload),
    descends keep_visible_dir repo_with_gettext rel files /\
    Forall (fun n => Text.startswith "." n = false) rel /\
    In (name, data) files /\
    ["locale"; "messages.po"] = rel ++ [name] /\
    translation_bucket name = Some "po_files".
Proof.
  apply (translation_paths_exactly repo_with_gettext "po_files").
  vm_compute. reflexivity.
Defined.

(** ** ScoringEngine: which signals reach the threshold *)

(** X11: the threshold of 30 is reached by a pattern match alone, by a
    translation file alone, and by an i18n package together with more than
    one detected language, and in no other way; the score is 100 exactly
    when all four signals are present and 0 exactly when none is. *)
Theorem classification_by_signals (directory : list entry) :
  let r := generate_multilingual_report directory in
  let patterns_found := truthy (i18n_patterns r) in
  let translations_found := any_values (translation_files r) in
  let packages_found := truthy (found_packages (requirements_analysis r)) in
  let several_languages := (1 <? List.length (detected_languages r))%nat in
  is_multilingual r =
    patterns_found || translations_found || (packages_found && several_languages) /\
  (confidence_score r =? 100)%Z =
    patterns_found && translations_found && packages_found && several_languages /\
  (confidence_score r =? 0)%Z =
    negb (patterns_found || translations_found || packages_found || several_languages).
Proof.
  unfold generate_multilingual_report.
  destruct (fold_left analyze_candidate _ _) as [all_patterns all_languages].
  cbv zeta. cbn [is_multilingual confidence_score i18n_patterns translation_files
                 requirements_analysis detected_languages].
  rewrite any_values_path_str. unfold raw_score.
  destruct (truthy all_patterns), (any_values (find_translation_files directory)),
    (truthy (found_packages (analyze_requirements_file directory))),
    (1 <? List.length all_languages)%nat; repeat split; reflexivity.
Qed.

(** ** DependencyInspector: catalogue names that contain one another *)

Section OverlapFacts.

Lemma filter_length_le {A : Type} (f g : A -> bool) (l : list A) :
  (forall x, f x = true -> g x = true) ->
  (List.length (filter f l) <= List.length (filter g l))%nat.
Proof.
  intros H. induction l as [|x l IH]; simpl; [lia|].
  destruct (f x) eqn:F.
  - rewrite (H x F). simpl. lia.
  - destruct (g x); simpl; lia.
Qed.

(** A catalogued name that holds another catalogued name is never found
    without it. *)
Lemma packages_in_overlap (long short content : string) :
  In short i18n_packages ->
  Text.contains (Text.str_lower short) (Text.str_lower long) = true ->
  In long (packages_in content) -> In short (packages_in content).
Proof.
  unfold packages_in. rewrite !filter_In. intros Hs Hsl [_ Hl].
  split; [exact Hs|]. exact (contains_trans _ _ _ Hsl Hl).
Qed.

Lemma manifest_packages_overlap (long short : string) (directory : list entry)
    (req_file : string) :
  In short i18n_packages ->
  Text.contains (Text.str_lower short) (Text.str_lower long) = true ->
  existsb (String.eqb long) (manifest_packages directory req_file) = true ->
  existsb (String.eqb short) (manifest_packages directory req_file) = true.
Proof.
  intros Hs Hsl H. apply existsb_exists in H as (x & Hx & E).
  apply String.eqb_eq in E. subst x.
  apply existsb_exists. exists short. split; [|apply String.eqb_refl].
  unfold manifest_packages in *.
  destruct (lookup_entry req_file directory) as [e|]; [|destruct Hx].
  destruct (read_manifest e); [|destruct Hx].
  exact (packages_in_overlap long short _ Hs Hsl Hx).
Qed.

End OverlapFacts.

(** X12: the catalogue holds names that contain other names of the
    catalogue, and the search is by substring: a manifest in which
    [python-gettext] is found also yields [gettext], and one in which
    [flask-babel] is found also yields [babel]; so over the whole result
    [gettext] and [babel] are listed at least as often as the longer
    names. *)
Theorem overlapping_package_names (directory : list entry) (content : string) :
  let found := found_packages (analyze_requirements_file directory) in
  (In "python-gettext" (packages_in content) -> In "gettext" (packages_in content)) /\
  (In "flask-babel" (packages_in content) -> In "babel" (packages_in content)) /\
  (count_occ string_dec found "python-gettext" <= count_occ string_dec found "gettext")%nat /\
  (count_occ string_dec found "flask-babel" <= count_occ string_dec found "babel")%nat.
Proof.
  cbv zeta.
  assert (C : forall long short,
             In short i18n_packages ->
             Text.contains (Text.str_lower short) (Text.str_lower long) = true ->
             (count_occ string_dec (found_packages (analyze_requirements_file directory)) long
              <= count_occ string_dec (found_packages (analyze_requirements_file directory)) short)%nat).
  { intros long short Hs Hsl.
    unfold analyze_requirements_file. rewrite fold_inspect_manifest.
    cbn [found_packages]. rewrite app_nil_l.
    rewrite !count_occ_flat_map by apply manifest_packages_nodup.
    apply filter_length_le. intros m. now apply manifest_packages_overlap. }
  split; [apply packages_in_overlap; [do 2 right; left; reflexivity | reflexivity]|].
  split; [apply packages_in_overlap; [right; left; reflexivity | reflexivity]|].
  split; apply C; try reflexivity.
  - do 2 right. left. reflexivity.
  - right. left. reflexivity.
Qed.

Lemma overlapping_package_names_witness :
  In "flask-babel" (packages_in "Flask-Babel==4.0") /\
  In "babel" (packages_in "Flask-Babel==4.0") /\
  packages_in "Flask-Babel==4.0" = ["babel"; "flask-babel"].
Proof.
  assert (H : In "flask-babel" (packages_in "Flask-Babel==4.0"))
    by (vm_compute; right; left; reflexivity).
  split; [exact H|]. split; [|reflexivity].
  exact (proj1 (proj2 (overlapping_package_names [] "Flask-Babel==4.0")) H).
Defined.

(** ** RepositoryFetcher: the URLs it builds *)

Section UrlFacts.

Local Open Scope string_scope.

Lemma rstrip_slash_snoc (u : string) : Text.rstrip_slash (u ++ "/") = Text.rstrip_slash u.
Proof.
  induction u as [|c u IH]; [reflexivity|].
  simpl. now rewrite IH.
Qed.

Lemma endswith_append (u p : string) : Text.endswith p (u ++ p) = true.
Proof. apply endswith_iff. now exists u. Qed.

Lemma endswith_git_slash (u : string) : Text.endswith ".git" (u ++ "/") = false.
Proof. unfold Text.endswith. rewrite rev_append. reflexivity. Qed.

Lemma split_slash_nonempty (s : string) : Text.split_slash s <> [].
Proof.
  destruct s as [|c s]; simpl; [discriminate|].
  destruct (Ascii.eqb c "/"); [discriminate|].
  destruct (Text.split_slash s); discriminate.
Qed.

(** Joining what was split gives the string back. *)
Lemma join_split_slash (s : string) : Text.join_slash (Text.split_slash s) = s.
Proof.
  unfold Text.join_slash. induction s as [|c s IH]; [reflexivity|].
  simpl. pose proof (split_slash_nonempty s) as Hne.
  destruct (Ascii.eqb c "/") eqn:E.
  - apply Ascii.eqb_eq in E. subst c.
    destruct (Text.split_slash s) as [|w ws]; [contradiction|].
    simpl in *. now rewrite IH.
  - destruct (Text.split_slash s) as [|w ws]; [contradiction|].
    destruct ws as [|w' ws]; simpl in *; now rewrite <- IH.
Qed.

Lemma join_slash_app (l m : list string) :
  l <> [] -> m <> [] ->
  Text.join_slash (l ++ m) = Text.join_slash l ++ "/" ++ Text.join_slash m.
Proof.
  unfold Text.join_slash. intros Hl Hm.
  induction l as [|x l IH]; [contradiction|].
  destruct l as [|y l].
  - simpl. destruct m; [contradiction | reflexivity].
  - change (String.concat "/" ((x :: y :: l) ++ m))
      with (x ++ "/" ++ String.concat "/" ((y :: l) ++ m)).
    rewrite IH by discriminate.
    change (String.concat "/" (x :: y :: l)) with (x ++ "/" ++ String.concat "/" (y :: l)).
    now rewrite !append_assoc.
Qed.

Lemma last_two_split (parts : list string) :
  (2 <= List.length parts)%nat -> exists l a b, parts = (l ++ [a; b])%list.
Proof.
  intros H. destruct (exists_last (l := parts)) as (l1 & b & ->);
    [destruct parts; [simpl in H; lia | discriminate]|].
  rewrite length_app in H. simpl in H.
  destruct (exists_last (l := l1)) as (l & a & ->);
    [destruct l1; [simpl in H; lia | discriminate]|].
  exists l, a, b. now rewrite <- app_assoc.
Qed.

Lemma last_two_parts (l : list string) (a b : string) :
  but_last_two (l ++ [a; b]) = l /\
  last_but_one (l ++ [a; b]) = a /\
  last_part (l ++ [a; b]) = b.
Proof.
  unfold but_last_two, last_but_one, last_part. rewrite length_app. simpl.
  replace (List.length l + 2 - 2)%nat with (List.length l + 0)%nat by lia.
  replace (List.length l + 2 - 1)%nat with (List.length l + 1)%nat by lia.
  rewrite firstn_app_2, !app_nth2_plus. simpl. now rewrite app_nil_r.
Qed.

(** A prefix test for a word without slash stops at a slash. *)
Lemma startswith_before_slash (p x y : string) :
  Text.contains "/" p = false ->
  Text.startswith p (x ++ String "/" y) = Text.startswith p x.
Proof.
  revert x. induction p as [|c p IH]; intros x Hp; [reflexivity|].
  assert (Hc : Ascii.eqb c "/" = false /\ Text.contains "/" p = false).
  { cbn [Text.contains Text.startswith] in Hp.
    apply orb_false_iff in Hp as [H1 H2]. rewrite andb_true_r in H1.
    rewrite Ascii.eqb_sym. now split. }
  destruct Hc as [Hc Hp'].
  destruct x as [|d x]; simpl.
  - now rewrite Hc.
  - now rewrite IH.
Qed.

Lemma endswith_after_slash (p x b : string) :
  Text.contains "/" p = false ->
  Text.endswith p ((x ++ "/") ++ b) = Text.endswith p b.
Proof.
  intros Hp. unfold Text.endswith. rewrite !rev_append. simpl.
  apply startswith_before_slash.
  destruct (Text.contains "/" (Text.rev p)) eqn:E; [|reflexivity].
  apply contains_iff in E as (a & c & E).
  assert (Text.contains "/" p = true); [|congruence].
  apply contains_iff. exists (Text.rev c), (Text.rev a).
  rewrite <- (rev_involutive p), E, !rev_append. simpl. now rewrite append_assoc.
Qed.

Lemma substring_prefix (t x : string) : substring 0 (String.length t) (t ++ x) = t.
Proof.
  induction t as [|c t IH]; simpl; [destruct x; reflexivity | now rewrite IH].
Qed.

Lemma drop_last_append (t x : string) : Text.drop_last (String.length x) (t ++ x) = t.
Proof.
  unfold Text.drop_last. rewrite length_append.
  replace (String.length t + String.length x - String.length x)%nat
    with (String.length t) by lia.
  apply substring_prefix.
Qed.

End UrlFacts.

Section UrlShape.

Local Open Scope string_scope.

Lemma rstrip_slash_app (a b : string) :
  Text.rstrip_slash (a ++ b) =
  match Text.rstrip_slash b with
  | EmptyString => Text.rstrip_slash a
  | String _ _ => a ++ Text.rstrip_slash b
  end.
Proof.
  induction a as [|c a IH]; simpl.
  - destruct (Text.rstrip_slash b); reflexivity.
  - rewrite IH. destruct (Text.rstrip_slash b) as [|x r]; [reflexivity|].
    destruct a; reflexivity.
Qed.

(** Splitting at a slash splits the list of parts. *)
Lemma split_slash_app (a b : string) :
  Text.split_slash (a ++ String "/" b) = (Text.split_slash a ++ Text.split_slash b)%list.
Proof.
  induction a as [|c a IH]; [reflexivity|].
  simpl. rewrite IH. destruct (Ascii.eqb c "/"); [reflexivity|].
  pose proof (split_slash_nonempty a).
  destruct (Text.split_slash a); [contradiction | reflexivity].
Qed.

Lemma contains_slash_cons (c : ascii) (s : string) :
  Text.contains "/" (String c s) = Ascii.eqb "/" c || Text.contains "/" s.
Proof. cbn [Text.contains Text.startswith]. now rewrite andb_true_r. Qed.

Lemma contains_slash_append (a b : string) :
  Text.contains "/" (a ++ b) = Text.contains "/" a || Text.contains "/" b.
Proof.
  induction a as [|c a IH].
  - destruct b; reflexivity.
  - change (String c a ++ b) with (String c (a ++ b)).
    rewrite !contains_slash_cons, IH. apply orb_assoc.
Qed.

(** No part holds a slash. *)
Lemma split_slash_parts (s : string) :
  Forall (fun part => Text.contains "/" part = false) (Text.split_slash s).
Proof.
  induction s as [|c s IH]; [repeat constructor|].
  simpl. destruct (Ascii.eqb c "/") eqn:E; [constructor; [reflexivity | exact IH]|].
  destruct (Text.split_slash s) as [|w ws].
  - repeat constructor. rewrite contains_slash_cons, Ascii.eqb_sym, E. reflexivity.
  - inversion IH as [|? ? Hw Hws]; subst. constructor; [|exact Hws].
    rewrite contains_slash_cons, Ascii.eqb_sym, E. exact Hw.
Qed.

Lemma last_part_in (l : list string) : l <> [] -> In (last_part l) l.
Proof.
  intros H. unfold last_part. apply nth_In.
  destruct l; [contradiction | simpl; lia].
Qed.

Lemma last_part_snoc (l : list string) (x : string) : last_part (l ++ [x]) = x.
Proof.
  unfold last_part. rewrite length_app. simpl.
  replace (List.length l + 1 - 1)%nat with (List.length l + 0)%nat by lia.
  now rewrite app_nth2_plus.
Qed.

Lemma until_success_incl (ok : string -> bool) (urls : list string) :
  incl (until_success ok urls) urls.
Proof.
  induction urls as [|u urls IH]; simpl; [intros x []|].
  intros x [<- | H]; [now left|]. right.
  destruct (ok u); [destruct H | now apply IH].
Qed.

Lemma until_success_nodup (ok : string -> bool) (urls : list string) :
  NoDup urls -> NoDup (until_success ok urls).
Proof.
  induction 1 as [|u urls Hu Hn IH]; simpl; constructor.
  - destruct (ok u); [intros [] | intros H; apply Hu, (until_success_incl ok urls), H].
  - destruct (ok u); [constructor | exact IH].
Qed.

Lemma until_success_length (ok : string -> bool) (urls : list string) :
  (List.length (until_success ok urls) <= List.length urls)%nat.
Proof.
  induction urls as [|u urls IH]; simpl; [lia|]. destruct (ok u); simpl; lia.
Qed.

Lemma append_inj_l (a x y : string) : a ++ x = a ++ y -> x = y.
Proof. induction a as [|c a IH]; simpl; intros H; [exact H | injection H as H; auto]. Qed.

Lemma possible_urls_nodup (repo_url : string) : NoDup (possible_urls repo_url).
Proof.
  unfold possible_urls. cbv zeta.
  generalize (if Text.endswith ".git" (last_part (Text.split_slash (Text.rstrip_slash repo_url)))
              then Text.drop_last 4 (last_part (Text.split_slash (Text.rstrip_slash repo_url)))
              else last_part (Text.split_slash (Text.rstrip_slash repo_url))) as repo.
  intros repo.
  generalize (Text.join_slash (but_last_two (Text.split_slash (Text.rstrip_slash repo_url)))
              ++ "/" ++ last_but_one (Text.split_slash (Text.rstrip_slash repo_url))
              ++ "/" ++ repo) as base.
  intros base.
  repeat constructor; cbn [In]; intros H;
    repeat (destruct H as [H | H]; [apply append_inj_l in H; discriminate H|]);
    destruct H.
Qed.

End UrlShape.

(** X13: the clone URL always ends with [.git] and is not suffixed twice,
    but a trailing slash of the input is kept in front of the suffix,
    whereas the archive URLs do not depend on trailing slashes. *)
Theorem clone_url_normalisation (repo_url : string) :
  Text.endswith ".git" (git_url_of repo_url) = true /\
  git_url_of (git_url_of repo_url) = git_url_of repo_url /\
  git_url_of (repo_url ++ "/") = (repo_url ++ "/.git")%string /\
  possible_urls (repo_url ++ "/") = possible_urls repo_url.
Proof.
  assert (H : Text.endswith ".git" (git_url_of repo_url) = true).
  { unfold git_url_of. destruct (Text.endswith ".git" repo_url) eqn:E; simpl;
      [exact E | apply endswith_append]. }
  split; [exact H|]. split; [|split].
  - unfold git_url_of at 1. now rewrite H.
  - unfold git_url_of. rewrite endswith_git_slash. simpl. apply append_assoc.
  - unfold possible_urls. now rewrite rstrip_slash_snoc.
Qed.

(** X14: no retries: the four archive URLs are pairwise distinct for
    every input, no external call is made twice in one fetch, and a fetch
    makes at most five of them. *)
Theorem no_attempt_twice (w : world) (repo_url : string) :
  NoDup (possible_urls repo_url) /\
  NoDup (fst (clone_gitlab_repo w repo_url)) /\
  (List.length (fst (clone_gitlab_repo w repo_url)) <= 5)%nat.
Proof.
  split; [apply possible_urls_nodup|].
  rewrite clone_gitlab_repo_trace. cbv zeta.
  set (archives := if archive_applies repo_url
                   then until_success (archive_succeeds w) (possible_urls repo_url) else []).
  assert (Hn : NoDup archives).
  { unfold archives. destruct (archive_applies repo_url); [|constructor].
    apply until_success_nodup, possible_urls_nodup. }
  assert (Hl : (List.length archives <= 4)%nat).
  { unfold archives. destruct (archive_applies repo_url); [|simpl; lia].
    apply (Nat.le_trans _ _ _ (until_success_length _ _)). reflexivity. }
  assert (Hf : NoDup (GitClone (git_url_of repo_url) :: map HttpGet archives)).
  { constructor.
    - intros H. apply in_map_iff in H as (x & H & _). discriminate H.
    - clear Hl. induction Hn as [|u l Hu Hn IH]; simpl; constructor; [|exact IH].
      intros H. apply in_map_iff in H as (x & H & Hx). injection H as ->. contradiction. }
  destruct (run_git_clone w (git_url_of repo_url)) as [rc|e];
    [destruct (rc =? 0)%Z | destruct (clone_errors e)]; cbn [fst]; split;
    try exact Hf; try (simpl; rewrite ?length_map; lia);
    repeat constructor; simpl; intuition discriminate.
Qed.

(** X15: for a URL with at least three parts, every archive URL is the
    repository URL, without its trailing slashes and its [.git] suffix,
    followed by the path of the endpoint, in which the repository name is
    the last part of the URL without [.git]; the name holds no slash. *)
Theorem archive_urls_extend_repository_url (repo_url : string) :
  (3 <= List.length (Text.split_slash (Text.rstrip_slash repo_url)))%nat ->
  possible_urls repo_url =
    [ (repo_root repo_url ++ "/-/archive/main/" ++ repo_name repo_url ++ "-main.zip")%string;
      (repo_root repo_url ++ "/-/archive/master/" ++ repo_name repo_url ++ "-master.zip")%string;
      (repo_root repo_url ++ "/repository/archive.zip?ref=main")%string;
      (repo_root repo_url ++ "/repository/archive.zip?ref=master")%string ] /\
  Text.contains "/" (repo_name repo_url) = false.
Proof.
  intros Hlen. unfold possible_urls, repo_root, repo_name. cbv zeta.
  remember (Text.rstrip_slash repo_url) as s eqn:Es. clear Es.
  destruct (last_two_split (Text.split_slash s)) as (l & a & b & E); [lia|].
  assert (Hl : l <> []).
  { intros ->. rewrite E in Hlen. simpl in Hlen. lia. }
  assert (Hb : Text.contains "/" b = false).
  { pose proof (split_slash_parts s) as H. rewrite E in H.
    apply Forall_app in H as [_ H]. inversion H as [|? ? _ H']; subst.
    inversion H' as [|? ? Hb _]; subst. exact Hb. }
  assert (Hs : s = (((Text.join_slash l ++ "/" ++ a) ++ "/") ++ b)%string).
  { rewrite <- (join_split_slash s) at 1. rewrite E.
    rewrite join_slash_app by (auto; discriminate).
    change (Text.join_slash [a; b]) with (a ++ "/" ++ b)%string.
    now rewrite !append_assoc. }
  rewrite E. destruct (last_two_parts l a b) as (-> & -> & ->).
  clear Hlen E. subst s.
  rewrite !endswith_after_slash by reflexivity.
  destruct (Text.endswith ".git" b) eqn:Eg.
  - apply endswith_iff in Eg as [t ->].
    rewrite <- (append_assoc _ t ".git").
    rewrite !(drop_last_append _ ".git").
    split; [now rewrite !append_assoc|].
    rewrite contains_slash_append in Hb. now apply orb_false_iff in Hb as [Hb _].
  - split; [now rewrite !append_assoc | exact Hb].
Qed.

Lemma archive_urls_extend_repository_url_witness :
  possible_urls "https://gitlab.com/group/sub/project.git//" =
    [ "https://gitlab.com/group/sub/project/-/archive/main/project-main.zip";
      "https://gitlab.com/group/sub/project/-/archive/master/project-master.zip";
      "https://gitlab.com/group/sub/project/repository/archive.zip?ref=main";
      "https://gitlab.com/group/sub/project/repository/archive.zip?ref=master" ].
Proof.
  rewrite (proj1 (archive_urls_extend_repository_url
                    "https://gitlab.com/group/sub/project.git//" ltac:(vm_compute; lia))).
  reflexivity.
Defined.

(** X16: a URL the presentation layer lets through ([http://] or
    [https://]) holds [//]; when the archive strategy is entered for it, it
    holds [git] in some letter case and has at least three parts, so that
    its archive URLs have the form of X15. *)
Theorem accepted_urls_have_three_parts (repo_url : string) :
  url_is_complete repo_url = true ->
  Text.contains "//" repo_url = true /\
  (archive_applies repo_url = true ->
   (3 <= List.length (Text.split_slash (Text.rstrip_slash repo_url)))%nat /\
   Text.contains "git" (Text.lower repo_url) = true).
Proof.
  unfold url_is_complete. intros H.
  assert (Hshape : exists scheme rest,
             repo_url = (scheme ++ "//" ++ rest)%string /\
             Text.rstrip_slash scheme = scheme /\
             Text.split_slash scheme = [scheme]).
  { apply orb_true_iff in H as [H | H]; apply startswith_inv in H as [rest ->].
    - exists "http:", rest. now repeat split.
    - exists "https:", rest. now repeat split. }
  destruct Hshape as (scheme & rest & -> & Hrs & Hsp).
  split; [apply (contains_intro "//" scheme rest)|].
  unfold archive_applies, archive_guard. intros Ha.
  apply andb_true_iff in Ha as [Hg Hlen]. apply andb_true_iff in Hg as [_ Hgit].
  split.
  - apply Nat.leb_le in Hlen.
    assert (Hr : Text.rstrip_slash ("//" ++ rest) =
                 match Text.rstrip_slash rest with
                 | EmptyString => EmptyString
                 | String _ _ => ("//" ++ Text.rstrip_slash rest)%string
                 end).
    { rewrite rstrip_slash_app. destruct (Text.rstrip_slash rest); reflexivity. }
    rewrite rstrip_slash_app, Hr in Hlen. rewrite rstrip_slash_app, Hr.
    destruct (Text.rstrip_slash rest) as [|x r].
    + rewrite Hrs, Hsp in Hlen. simpl in Hlen. lia.
    + cbn [String.append].
      rewrite (split_slash_app scheme), Hsp.
      change (Text.split_slash (String "/" (String x r)))
        with ("" :: Text.split_slash (String x r)).
      pose proof (split_slash_nonempty (String x r)) as Hne.
      destruct (Text.split_slash (String x r)); [contradiction | simpl; lia].
  - apply orb_true_iff in Hgit as [Hgit | Hgit]; [|exact Hgit].
    apply (contains_trans _ "gitlab"); [reflexivity | exact Hgit].
Qed.

Lemma accepted_urls_have_three_parts_witness :
  url_is_complete "https://gitlab.com/group/project" = true /\
  archive_applies "https://gitlab.com/group/project" = true /\
  (3 <= List.length (Text.split_slash (Text.rstrip_slash "https://gitlab.com/group/project")))%nat.
Proof.
  split; [reflexivity|]. split; [reflexivity|].
  apply (proj2 (accepted_urls_have_three_parts "https://gitlab.com/group/project" eq_refl)).
  reflexivity.
Defined.

(** X17: the file name proposed for the exported report never holds a
    slash, and it carries no repository name when the URL was entered with
    a trailing slash. *)
Theorem export_file_name_is_plain (repo_url : string) :
  Text.contains "/" (export_file_name repo_url) = false /\
  export_file_name (repo_url ++ "/") = "multilingual_report_.json".
Proof.
  unfold export_file_name. split.
  - rewrite !contains_slash_append.
    pose proof (split_slash_parts repo_url) as H. rewrite Forall_forall in H.
    rewrite (H _ (last_part_in _ (split_slash_nonempty repo_url))). reflexivity.
  - change (repo_url ++ "/")%string with (repo_url ++ String "/" "")%string.
    rewrite split_slash_app. simpl (Text.split_slash "").
    now rewrite last_part_snoc.
Qed.

(** ** DependencyInspector: the order of the listing does not matter *)

Section ListingOrder.

Lemma lookup_entry_some (name : string) (es : list entry) (e : entry) :
  lookup_entry name es = Some e -> In e es /\ entry_name e = name.
Proof.
  induction es as [|x es IH]; simpl; [discriminate|].
  fold (entry_name x). destruct (String.eqb name (entry_name x)) eqn:E.
  - apply String.eqb_eq in E. intros H. injection H as <-. split; [now left | auto].
  - intros H. destruct (IH H). split; [now right | assumption].
Qed.

Lemma lookup_entry_none (name : string) (es : list entry) :
  lookup_entry name es = None -> forall e, In e es -> entry_name e <> name.
Proof.
  induction es as [|x es IH]; simpl; [intros _ e []|].
  fold (entry_name x). destruct (String.eqb name (entry_name x)) eqn:E; [discriminate|].
  apply String.eqb_neq in E. intros H e [<- | He]; [congruence | now apply IH].
Qed.

Lemma same_name_same_entry (es : list entry) (x y : entry) :
  NoDup (map entry_name es) -> In x es -> In y es -> entry_name x = entry_name y -> x = y.
Proof.
  induction es as [|e es IH]; simpl; [intros _ []|].
  intros Hnd Hx Hy E. inversion Hnd as [|? ? Hout Hnd']; subst.
  destruct Hx as [-> | Hx], Hy as [-> | Hy]; auto.
  - exfalso. apply Hout. rewrite E. now apply in_map.
  - exfalso. apply Hout. rewrite <- E. now apply in_map.
Qed.

Lemma lookup_entry_permutation (name : string) (es es' : list entry) :
  Permutation es es' -> NoDup (map entry_name es) ->
  lookup_entry name es' = lookup_entry name es.
Proof.
  intros Hp Hnd.
  destruct (lookup_entry name es') as [e'|] eqn:E', (lookup_entry name es) as [e|] eqn:E.
  - apply lookup_entry_some in E' as [H1 H2], E as [H3 H4].
    f_equal. apply (same_name_same_entry es); auto.
    + apply (Permutation_in _ (Permutation_sym Hp)), H1.
    + congruence.
  - apply lookup_entry_some in E' as [H1 H2].
    apply (Permutation_in _ (Permutation_sym Hp)) in H1.
    now destruct (lookup_entry_none _ _ E _ H1).
  - apply lookup_entry_some in E as [H1 H2].
    apply (Permutation_in _ Hp) in H1.
    now destruct (lookup_entry_none _ _ E' _ H1).
  - reflexivity.
Qed.

End ListingOrder.

(** X18: the dependency report does not depend on the order in which the
    root directory lists its entries, the names of a listing being pairwise
    distinct. *)
Theorem dependency_report_ignores_listing_order (directory directory' : list entry) :
  Permutation directory directory' ->
  NoDup (map entry_name directory) ->
  analyze_requirements_file directory' = analyze_requirements_file directory.
Proof.
  intros Hp Hnd. unfold analyze_requirements_file.
  generalize ({| requirements_files := []; found_packages := [] |}).
  induction manifest_names as [|m names IH]; intros acc; simpl; [reflexivity|].
  rewrite IH. f_equal. unfold inspect_manifest.
  now rewrite (lookup_entry_permutation m _ _ Hp Hnd).
Qed.

Lemma dependency_report_ignores_listing_order_witness :
  analyze_requirements_file
    [ File "setup.py" (Utf8 "install_requires=['polib']"); Dir "src" [];
      File "requirements.txt" (Utf8 "Babel") ] =
  analyze_requirements_file
    [ File "requirements.txt" (Utf8 "Babel"); Dir "src" [];
      File "setup.py" (Utf8 "install_requires=['polib']") ].
Proof.
  apply dependency_report_ignores_listing_order.
  - apply (perm_trans (l' := [ File "requirements.txt" (Utf8 "Babel");
                               File "setup.py" (Utf8 "install_requires=['polib']");
                               Dir "src" [] ])).
    + apply perm_skip, perm_swap.
    + apply (perm_trans (l' := [ File "setup.py" (Utf8 "install_requires=['polib']");
                                 File "requirements.txt" (Utf8 "Babel");
                                 Dir "src" [] ])).
      * apply perm_swap.
      * apply perm_skip, perm_swap.
  - repeat constructor; simpl; intuition discriminate.
Defined.

(** ** PatternDetector: letter case *)

Section CaseFacts.

Local Open Scope string_scope.

Lemma is_space_lower (c : ascii) : Re.is_space (Text.lower_ascii c) = Re.is_space c.
Proof. destruct c as [[] [] [] [] [] [] [] []]; reflexivity. Qed.

Lemma is_cont_lower (c : ascii) : Re.is_cont (Text.lower_ascii c) = Re.is_cont c.
Proof. destruct c as [[] [] [] [] [] [] [] []]; reflexivity. Qed.

Lemma newline_lower (c : ascii) :
  Ascii.eqb (Text.lower_ascii c) "010" = Ascii.eqb c "010".
Proof. destruct c as [[] [] [] [] [] [] [] []]; reflexivity. Qed.

Lemma take_cont_lower (s : string) :
  Re.take_cont (Text.lower s) = lower_pair (Re.take_cont s).
Proof.
  induction s as [|c s IH]; [reflexivity|].
  simpl. rewrite is_cont_lower, IH.
  destruct (Re.is_cont c); [|reflexivity].
  destruct (Re.take_cont s). reflexivity.
Qed.

Lemma step_lower (k : Re.cclass) (s : string) :
  Re.step k (Text.lower s) = option_map lower_pair (Re.step k s).
Proof.
  destruct s as [|c s]; [reflexivity|]. simpl. destruct k as [a | |].
  - rewrite lower_ascii_idempotent. destruct (Ascii.eqb _ _); reflexivity.
  - rewrite is_space_lower. destruct (Re.is_space c); reflexivity.
  - rewrite newline_lower. destruct (Ascii.eqb c "010"); [reflexivity|].
    rewrite take_cont_lower. destruct (Re.take_cont s). reflexivity.
Qed.

Lemma star_lower (k : Re.cclass) (cont : string -> option (string * string)) :
  (forall s, cont (Text.lower s) = option_map lower_pair (cont s)) ->
  forall fuel s,
    Re.star fuel k cont (Text.lower s) = option_map lower_pair (Re.star fuel k cont s).
Proof.
  intros Hc. induction fuel as [|fuel IH]; intros s; simpl; [apply Hc|].
  rewrite step_lower. destruct (Re.step k s) as [[t s1]|]; simpl; [|apply Hc].
  rewrite IH. destruct (Re.star fuel k cont s1) as [[m r]|]; simpl; [|apply Hc].
  unfold lower_pair. simpl. now rewrite lower_append.
Qed.

Lemma match_here_lower (re : Re.regex) :
  forall s, Re.match_here re (Text.lower s) = option_map lower_pair (Re.match_here re s).
Proof.
  induction re as [|[k q] re IH]; intros s; [reflexivity|].
  simpl. destruct q.
  - rewrite step_lower. destruct (Re.step k s) as [[t s1]|]; simpl; [|reflexivity].
    rewrite IH. destruct (Re.match_here re s1) as [[m r]|]; simpl; [|reflexivity].
    unfold lower_pair. simpl. now rewrite lower_append.
  - rewrite lower_length. now apply star_lower.
  - rewrite step_lower. destruct (Re.step k s) as [[t s1]|]; simpl; [|reflexivity].
    rewrite lower_length, (star_lower k _ IH).
    destruct (Re.star _ k _ s1) as [[m r]|]; simpl; [|reflexivity].
    unfold lower_pair. simpl. now rewrite lower_append.
Qed.

Lemma next_char_lower (s : string) : Re.next_char (Text.lower s) = Text.lower (Re.next_char s).
Proof.
  destruct s as [|c s]; [reflexivity|]. simpl. rewrite take_cont_lower.
  destruct (Re.take_cont s). reflexivity.
Qed.

Lemma findall_from_lower (re : Re.regex) :
  forall fuel s,
    Re.findall_from fuel re (Text.lower s) = map Text.lower (Re.findall_from fuel re s).
Proof.
  induction fuel as [|fuel IH]; intros s; [reflexivity|].
  simpl. rewrite match_here_lower.
  destruct (Re.match_here re s) as [[m r]|]; simpl.
  - destruct m as [|c m]; simpl.
    + destruct s as [|d s]; [reflexivity|]. simpl. f_equal.
      rewrite <- IH. f_equal. apply (next_char_lower (String d s)).
    + f_equal. apply IH.
  - destruct s as [|d s]; [reflexivity|]. simpl.
    rewrite <- IH. f_equal. apply (next_char_lower (String d s)).
Qed.

Lemma findall_lower (pattern content : string) :
  Re.findall pattern (Text.lower content) = map Text.lower (Re.findall pattern content).
Proof. unfold Re.findall. rewrite lower_length. apply findall_from_lower. Qed.

Lemma type_matches_lower (content : string) (pattern_list : list string) :
  type_matches (Text.lower content) pattern_list =
  map Text.lower (type_matches content pattern_list).
Proof.
  rewrite !type_matches_concat.
  induction pattern_list as [|p pl IH]; [reflexivity|].
  simpl. now rewrite map_app, findall_lower, IH.
Qed.

End CaseFacts.

Section KeepMap.

Context {X Y : Type} (f f' : X -> list Y) (g : list Y -> list Y).
Hypothesis f'_is : forall x, f' x = g (f x).
Hypothesis g_truthy : forall v, truthy (g v) = truthy v.

Lemma dict_set_map_values (k : string) (v : list Y) (d : dict (list Y)) :
  dict_set k (g v) (map (fun '(k, v) => (k, g v)) d) =
  map (fun '(k, v) => (k, g v)) (dict_set k v d).
Proof.
  induction d as [|[k' v'] d IH]; simpl; [reflexivity|].
  destruct (String.eqb k k'); simpl; [reflexivity | now rewrite IH].
Qed.

(** Two loops whose results differ by [g] build dictionaries that differ
    by [g]. *)
Lemma fold_keep_map_values (items : list (string * X)) :
  forall d,
    fold_left (keep_truthy f') items (map (fun '(k, v) => (k, g v)) d) =
    map (fun '(k, v) => (k, g v)) (fold_left (keep_truthy f) items d).
Proof.
  induction items as [|[k x] items IH]; intros d; simpl; [reflexivity|].
  rewrite <- IH. f_equal. rewrite f'_is, g_truthy.
  destruct (truthy (f x)); [apply dict_set_map_values | reflexivity].
Qed.

End KeepMap.

(** X19: pattern detection does not see letter case: on the content in
    lower case the detector records the same categories and pattern types,
    with the same matches in lower case; so whether a file has a pattern
    category does not depend on the letter case of its content. *)
Theorem pattern_detection_ignores_case (content : string) :
  content_patterns (Text.lower content) = lower_matches (content_patterns content) /\
  map fst (content_patterns (Text.lower content)) = map fst (content_patterns content) /\
  truthy (content_patterns (Text.lower content)) = truthy (content_patterns content).
Proof.
  assert (Hcat : forall pattern_dict,
             category_matches (Text.lower content) pattern_dict =
             map (fun '(pattern_type, matches) => (pattern_type, map Text.lower matches))
                 (category_matches content pattern_dict)).
  { intros pattern_dict. rewrite !category_matches_fold.
    apply (fold_keep_map_values (type_matches content) (type_matches (Text.lower content))
             (map Text.lower) (type_matches_lower content)
             (fun v => match v with [] => eq_refl | _ :: _ => eq_refl end)
             pattern_dict []). }
  assert (H : content_patterns (Text.lower content) = lower_matches (content_patterns content)).
  { rewrite !content_patterns_fold.
    apply (fold_keep_map_values (category_matches content)
             (category_matches (Text.lower content))
             (map (fun '(pattern_type, matches) => (pattern_type, map Text.lower matches)))
             Hcat
             (fun v => match v with [] => eq_refl | _ :: _ => eq_refl end)
             patterns []). }
  split; [exact H|]. rewrite H. unfold lower_matches. split.
  - rewrite map_map. apply map_ext. now intros [k v].
  - destruct (content_patterns content) as [|[k v] l]; reflexivity.
Qed.

(** ** The names searched for up to ASCII letter case *)

Section PlainNameFacts.

Local Open Scope string_scope.

Lemma startswith_str_lower_plain (needle : string) :
  forall s : string,
    all_bytes (fun c => is_ascii c && negb (Ascii.eqb c "k")) needle = true ->
    last_is_i needle = false ->
    Text.startswith needle (Text.str_lower s) = true ->
    Text.startswith needle (Text.lower s) = true.
Proof.
  induction needle as [|h needle IH]; intros s Ha Hi H; [reflexivity|].
  cbn [all_bytes] in Ha. apply andb_true_iff in Ha as [Hh Ha].
  apply andb_true_iff in Hh as [Hh Hk]. apply negb_true_iff in Hk.
  assert (Hi' : needle = "" \/ last_is_i needle = false).
  { destruct needle; [now left | right; exact Hi]. }
  assert (T : forall x t, is_ascii x = false ->
                Text.startswith needle (String x t) = true -> needle = "").
  { intros x t Hx Hs. destruct needle as [|y needle]; [reflexivity|].
    cbn [Text.startswith] in Hs. apply andb_true_iff in Hs as [Hs _].
    apply Ascii.eqb_eq in Hs. subst y.
    cbn [all_bytes] in Ha. rewrite Hx in Ha. discriminate Ha. }
  destruct s as [|c s]; [discriminate H|].
  destruct (Ascii.eqb c "196" && Text.startswith (String "176" "") s) eqn:E1.
  { exfalso. apply andb_true_iff in E1 as [Ec Es]. apply Ascii.eqb_eq in Ec. subst c.
    apply startswith_inv in Es as [r ->].
    change (String "196" (String "176" "" ++ r)) with (String "196" (String "176" r)) in H.
    rewrite str_lower_dotted_I in H. cbn [Text.startswith] in H.
    apply andb_true_iff in H as [Hc Hs]. apply Ascii.eqb_eq in Hc. subst h.
    apply T in Hs; [|reflexivity]. subst needle. discriminate Hi. }
  destruct (Ascii.eqb c "226" && Text.startswith (String "132" (String "170" "")) s) eqn:E2.
  { exfalso. apply andb_true_iff in E2 as [Ec Es]. apply Ascii.eqb_eq in Ec. subst c.
    apply startswith_inv in Es as [r ->].
    change (String "226" (String "132" (String "170" "") ++ r))
      with (String "226" (String "132" (String "170" r))) in H.
    rewrite str_lower_kelvin in H. cbn [Text.startswith] in H.
    apply andb_true_iff in H as [Hc _]. congruence. }
  rewrite (str_lower_plain c s E1 E2) in H.
  cbn [Text.startswith Text.lower] in H |- *.
  apply andb_true_iff in H as [Hc Hs]. rewrite Hc.
  destruct Hi' as [-> | Hi']; [reflexivity|].
  exact (IH s Ha Hi' Hs).
Qed.

Lemma contains_str_lower_plain (needle : string) :
  plain_name needle = true ->
  forall s : string,
    Text.contains needle (Text.str_lower s) = true ->
    Text.contains needle (Text.lower s) = true.
Proof.
  unfold plain_name. intros Hp.
  apply andb_true_iff in Hp as [Hp Hne]. apply andb_true_iff in Hp as [Ha Hi].
  apply negb_true_iff in Hi.
  destruct needle as [|h needle]; [discriminate Hne|]. clear Hne.
  assert (Hh : is_ascii h = true).
  { cbn [all_bytes] in Ha. apply andb_true_iff in Ha as [Ha _].
    now apply andb_true_iff in Ha as [Ha _]. }
  assert (N : forall x t, is_ascii x = false ->
                Text.startswith (String h needle) (String x t) = false).
  { intros x t Hx. cbn [Text.startswith].
    destruct (Ascii.eqb h x) eqn:E; [|reflexivity].
    apply Ascii.eqb_eq in E. subst x. congruence. }
  assert (G : forall (n : nat) (s : string), (String.length s <= n)%nat ->
                Text.contains (String h needle) (Text.str_lower s) = true ->
                Text.contains (String h needle) (Text.lower s) = true);
    [|intros s; exact (G _ s (le_n _))].
  induction n as [|n IH]; intros s Hn H.
  - destruct s; [exact H | simpl in Hn; lia].
  - destruct s as [|c s]; [exact H|]. simpl in Hn.
    assert (S : Text.startswith (String h needle) (Text.str_lower (String c s)) = true ->
                Text.contains (String h needle) (Text.lower (String c s)) = true).
    { intros Hs. apply (startswith_str_lower_plain _ _ Ha Hi) in Hs.
      cbn [Text.lower Text.contains] in *. rewrite Hs. reflexivity. }
    destruct (Ascii.eqb c "196" && Text.startswith (String "176" "") s) eqn:E1.
    { apply andb_true_iff in E1 as [Ec Es]. apply Ascii.eqb_eq in Ec. subst c.
      apply startswith_inv in Es as [r ->].
      change (String "196" (String "176" "" ++ r)) with (String "196" (String "176" r)) in *.
      rewrite str_lower_dotted_I in H, S.
      cbn [Text.contains] in H. apply orb_true_iff in H as [H | H]; [exact (S H)|].
      rewrite !N in H by reflexivity. cbn [orb] in H.
      change (Text.lower (String "196" (String "176" r)))
        with (String "196" (String "176" (Text.lower r))).
      cbn [Text.contains]. rewrite (IH r); [now rewrite !orb_true_r | simpl in Hn; lia | exact H]. }
    destruct (Ascii.eqb c "226" && Text.startswith (String "132" (String "170" "")) s) eqn:E2.
    { apply andb_true_iff in E2 as [Ec Es]. apply Ascii.eqb_eq in Ec. subst c.
      apply startswith_inv in Es as [r ->].
      change (String "226" (String "132" (String "170" "") ++ r))
        with (String "226" (String "132" (String "170" r))) in *.
      rewrite str_lower_kelvin in H, S.
      cbn [Text.contains] in H. apply orb_true_iff in H as [H | H]; [exact (S H)|].
      change (Text.lower (String "226" (String "132" (String "170" r))))
        with (String "226" (String "132" (String "170" (Text.lower r)))).
      cbn [Text.contains]. rewrite (IH r); [now rewrite !orb_true_r | simpl in Hn; lia | exact H]. }
    rewrite (str_lower_plain c s E1 E2) in H, S.
    cbn [Text.contains] in H. apply orb_true_iff in H as [H | H]; [exact (S H)|].
    cbn [Text.lower Text.contains]. rewrite (IH s); [apply orb_true_r | lia | exact H].
Qed.

(** For such a name, lower-casing the letters [A]..[Z] alone finds what
    the lower case of [str.lower] finds. *)
Lemma contains_lower_exact (needle s : string) :
  plain_name needle = true -> Text.lower needle = needle ->
  Text.contains needle (Text.lower s) = Text.contains needle (Text.str_lower s).
Proof.
  intros Hp Hl.
  destruct (Text.contains needle (Text.str_lower s)) eqn:E.
  - exact (contains_str_lower_plain needle Hp s E).
  - destruct (Text.contains needle (Text.lower s)) eqn:F; [|reflexivity].
    rewrite <- E. apply contains_lower_inv in F as (pre & kw & post & -> & Hk).
    unfold plain_name in Hp.
    apply andb_true_iff in Hp as [Hp Hne]. apply andb_true_iff in Hp as [Ha _].
    assert (Hb : forall n, all_bytes (fun c => is_ascii c && negb (Ascii.eqb c "k")) n = true ->
                   all_bytes is_ascii n = true /\
                   all_bytes (fun c => negb (is_fold_lead c)) n = true).
    { induction n as [|c n IH]; intros H; [now split|].
      cbn [all_bytes] in H |- *. apply andb_true_iff in H as [Hc H].
      apply andb_true_iff in Hc as [Hc _]. destruct (IH H) as [I1 I2].
      rewrite Hc, I1, I2, (is_ascii_not_lead c Hc). now split. }
    destruct (Hb needle Ha) as [H1 H2].
    symmetry. apply contains_str_lower_intro; [|exact H1 | exact Hk].
    unfold searchable. rewrite H2, andb_true_r.
    destruct needle as [|h needle]; [discriminate Hne|].
    cbn [all_bytes] in H1. apply andb_true_iff in H1 as [Hh _].
    now rewrite (is_ascii_not_cont h Hh).
Qed.

End PlainNameFacts.

(** X20: the marker of a Streamlit file, the keywords of translation file
    names and the words of the archive guard are found up to the case of
    the letters [A]..[Z] only: in the lower case of [str.lower] they occur
    exactly when they occur after lower-casing these letters, since none of
    them holds a [k] or ends in [i]. *)
Theorem markers_found_up_to_ascii_case :
  (forall content : string,
      Text.contains "streamlit" (Text.str_lower content) =
      Text.contains "streamlit" (Text.lower content)) /\
  (forall file : string,
      existsb (fun keyword => Text.contains keyword (Text.str_lower file))
              ["lang"; "translation"; "locale"; "i18n"] =
      has_i18n_keyword file) /\
  (forall repo_url : string,
      Text.contains "//" repo_url &&
      (Text.contains "gitlab" (Text.str_lower repo_url) ||
       Text.contains "git" (Text.str_lower repo_url)) =
      archive_guard repo_url).
Proof.
  split; [|split].
  - intros content. symmetry. now apply contains_lower_exact.
  - intros file. unfold has_i18n_keyword. cbn [existsb].
    rewrite <- !contains_lower_exact by reflexivity. reflexivity.
  - intros repo_url. unfold archive_guard.
    rewrite <- !contains_lower_exact by reflexivity. reflexivity.
Qed.
